(* ===== verification/_CoqProject ===== *)
-Q . S2P
Prelude.v
Json.v
Validation.v
JobStore.v
StoreOrdering.v
Collector.v
Orchestrator.v
Route.v
Contract.v
Concurrency.v
Jsx.v
Faq.v
Hero.v
