(* ===== verification/Prelude.v ===== *)
(** * kdp-niche: the data-collection job endpoints, verified

    ** The program
    The repository is a marketing site with one piece of engineering: the
    route [src/app/api/amazon/collect/route.ts].  Its [POST] handler
    checks the caller (Supabase auth), parses the JSON body, validates it
    with the zod schema [collectRequestSchema] ({keywords, category?,
    method = "api" | "scraping"}), runs the collection service's
    [collectBooksViaApi] or [collectBooksViaScraping], and answers with the
    job the service recorded and the number of books.  Its [GET] handler
    checks the caller, reads [jobId] from the query string, reads that row
    of the [data_collection_jobs] table and answers with a camelCase view
    of it.  Both wrap their body in [try]/[catch] and answer 500 with the
    error's message.  The service ([@/libs/amazon/service]) and the table
    are not under [src/]; the spec describes them: a job store with
    [create]/[get]/[update], two strategies behind one [collect]
    capability, and an orchestrator that moves a job
    [pending -> running -> completed | failed].  The rest of [src/] is
    presentation: [FAQ.tsx], an accordion whose items each keep an
    [isOpen] flag, and [Hero.tsx], a static banner.

    ** The files (in dependency order) and what they model
    - [Prelude] (this file): the error-state monad [est S E A] in which
      every handler and service call runs ([S] the database, [E] what can
      be thrown; [est_catch] is [try]/[catch]), its notation
      [x <- c ;; k] in [kdp_scope], the hint database [kdp], tactics
      ([run_inv], [bool_lia], [decide_eval]) and lemmas on tables queried
      by key.
    - [Json] (Module [Json]): JSON values, property access [jget] (last
      duplicate wins, as [JSON.parse]), the [response] record and
      [NextResponse.json]; [jtype] and [has_type], the shapes of JSON
      values the interface contract speaks of.
    - [Validation] (Module [Validation]): zod's [safeParse] of the schema,
      field by field ([parse_keywords], [parse_category], [parse_method]),
      collecting every issue in schema order; [issue_json] is the issue
      shape of the 400 answer, with zod's key order per issue kind (an
      enum's [invalid_type] issue, [invalid_type_enum], puts [expected]
      and [received] before [code]).
    - [JobStore] (Module [JobStore], modelled from spec section 4.2): the
      table as a list of [job_row]s with the route's column names, an id
      sequence, a clock and an availability flag; [select_single] is the
      route's [.select("*").eq("id", jobId).single()]; [create], [get],
      [update] (forward transitions only, a repeated transition a no-op),
      [now]; the status machine [status_step]; [store_step], every move of
      a concurrent world, and [run_ops], an executable script of store
      calls whose every run is such a sequence of moves; the abstract
      contract [Spec.get]/[Spec.update] on a [gmap] and the abstraction
      [abs].
    - [StoreOrdering] (Module [StoreOrdering], spec sections 3 and 5):
      the ordering guarantees of the store, stated of [JobStore]'s
      operations; [status_changes] counts, along a list of patches, the
      [update]s that change a job's stored status; [created_order] relates
      creation order, [createdAt] and the clock.
    - [Collector] (Module [Collector], spec section 4.1): the class
      [Collector] (one [collect] capability) and its two instances,
      [ApiCollector] and [ScrapeCollector], each mapping what the
      marketplace answers to books or a typed failure; the class
      [CollectorLaws] is what a strategy promises the orchestrator (it
      fails only with the error kinds of its list), discharged by both
      instances.
    - [Orchestrator] (Module [Orchestrator], spec section 4.3):
      [collect_books], generic in the [Collector] instance, and
      [collectBooksViaApi]/[collectBooksViaScraping]; [row_wf] is the
      row invariant of spec section 3.
    - [Route] (Module [Route]): [POST] and [GET] of [route.ts], line by
      line, with the authenticated user and the strategies as the [env]
      input and the request's body, the [SyntaxError] message
      [req.json()] throws when it is not JSON ([req_syntax_error]) and
      the query string as [request].
    - [Contract] (Module [Contract], spec section 6): the statuses and
      body shapes each endpoint's contract allows ([get_contract],
      [post_contract]) and the shapes of the job view, the stored row and
      zod's issues.
    - [Concurrency] (Module [Concurrency], spec section 5): a run split
      into its three atomic store transactions ([worker_step] on a
      [phase]: create, stamp running, record the outcome); [run_alone]
      runs them back to back; [sys] holds the store shared by two runs
      and their phases, and [run_sched] interleaves the runs' transactions
      by a schedule ([true]: the first run moves).
    - [Jsx]: rendered JSX trees and JavaScript's template-literal
      conversions; [Faq] (Module [Faq]): [faqList], [FaqItem] rendered from
      its [isOpen], [toggle] (the click handler), the accordion state as a
      list of flags and [faq_click]; [Hero] (Module [Hero]): the banner.

    ** What is proved (claims C1-C33, in order of importance)
    - Route (C1-C11): 401 without a user on both handlers; 400 with the
      issues and no job on an invalid body; the exact answer and store of
      a valid POST (one row appended, run to a terminal status); POST then
      GET returns the same row; a failed strategy still answers 200
      "Successfully collected 0 books" (a finding); 500 without a job when
      the store is down; GET found, not found (404 also for a failed read
      and for a malformed id: findings), missing or empty [jobId]; GET is
      read-only; a non-JSON body answers 500 with the parser's own
      message and creates no job.
    - Contract (C12-C14): on every path, each handler answers a status
      of its contract with a body of the contract's shape for it (the
      job view with its ten typed fields; zod's issues; error objects),
      and no error escapes its [try]/[catch]; the strategy-level errors a
      request can meet are exactly those spec section 4.1 lists for its
      [method].
    - Run stages and Orchestrator (C15-C18): each of a run's three
      transactions leaves the store with the job pending, then running
      (same id), then terminal, and the three compose to [collect_books];
      completed with the count (zero books is a completed job) or failed
      with the error text, proved against the [CollectorLaws] interface
      to be an error its strategy may raise; the run keeps the store
      well-formed (ids and [row_wf]).
    - Concurrency (C19): two runs interleaved by any schedule that gives
      each its three transactions finish independently, each with its own
      distinct row holding its query and its own strategy's outcome (the
      invariant [sys_inv] is carried through every schedule step by
      induction on the schedule).
    - Orchestrator, store down (C20): with the store down nothing runs.
    - Job store (C21-C29): rows are never deleted and their status never
      regresses along any sequence of store operations (rule induction on
      [rtc store_step]); the id invariant holds after every operation;
      backward or skipping transitions are refused; of two racing terminal
      updates of a job the first wins; a duplicated update is a no-op;
      any list of [update]s changes a job's status at most
      [2 - rank] times, so its status settles; [createdAt] increases with
      creation order and stays below the clock; [update]/[get] refine the
      [gmap] contract; create-then-get.
    - Validation (C30-C32): [safeParse] succeeds exactly on the bodies
      the schema describes; encoding a request and parsing it back is the
      identity (non-empty keywords); empty keywords are always rejected.
    - FAQ (C33): after any click sequence an item renders expanded iff it
      was clicked an odd number of times, and its icon's classes are then
      exactly the template literal's, the string "false" when collapsed
      (a finding).

    ** Bounds and choices
    No fuel is needed: every handler and service call is a finite
    composition of total functions.  Timestamps are ticks of the store's
    clock ([now] advances it), so "later" is [<] on [nat]; the table's
    [timestamptz] strings are abstracted to their order, the only thing
    the code and the spec use of them; a run takes three ticks.  Ids are
    [fresh_id n] for the [n]-th allocation (the real ids are UUIDs: only
    their distinctness matters).  JSON numbers are integers (counts and
    timestamps only).  String lengths are byte lengths; zod counts UTF-16
    units, which agrees on "empty or not", the only length the schema
    checks.  A schedule is a finite list of turns; the independence
    theorem asks for at least three turns per run, the number of
    transactions a run has, and extra turns of a finished run are no-ops.
    [update] accepts a patch repeating the current status as a no-op
    (spec section 5's idempotence) and otherwise only the forward steps of
    [status_step].

    ** Not modelled
    The authentication provider beyond its answer; network I/O and HTML
    parsing inside the strategies (their observable answers are inputs);
    the asynchronous hand-off the spec allows (the code awaits the run
    inline, so the synchronous path is the one modelled; a background
    worker is a design the spec suggests, not code of the repository);
    retry and cancellation (the spec leaves both open); logging; styling
    and the DOM; the imported [ButtonLead] and [Image] components.  Of the
    three files under [src/], every line but the imports and the doc
    comments is translated by a definition of this development; what is
    left is either outside [src/] and modelled from the spec (the service
    and the table) or one of the external collaborators above, whose
    internals neither the code nor the spec defines. *)

From stdpp Require Export base list strings gmap pretty.

Declare Scope kdp_scope.
Delimit Scope kdp_scope with kdp.
Open Scope kdp_scope.

Create HintDb kdp.

(** ** An error-state monad

    The route handlers and the collection service are [async] functions that
    read and write a shared store and may throw.  A computation of type
    [est S E A] runs on a state [S] and either throws an [E] ([inl]) or
    returns an [A] ([inr]), together with the state reached.  A throw keeps
    the writes that happened before it, as the database does. *)
Definition est (S E A : Type) : Type := S -> (E + A) * S.

Definition est_ret {S E A} (a : A) : est S E A := fun s => (inr a, s).
Definition est_throw {S E A} (e : E) : est S E A := fun s => (inl e, s).
Definition est_bind {S E A B} (c : est S E A) (k : A -> est S E B) : est S E B :=
  fun s => match c s with
           | (inl e, s') => (inl e, s')
           | (inr a, s') => k a s'
           end.
Definition est_get {S E} : est S E S := fun s => (inr s, s).
Definition est_put {S E} (s : S) : est S E unit := fun _ => (inr tt, s).
(** [try { c } catch (e) { h(e) }] *)
Definition est_catch {S E A} (c : est S E A) (h : E -> est S E A) : est S E A :=
  fun s => match c s with
           | (inl e, s') => h e s'
           | (inr a, s') => (inr a, s')
           end.

(** Re-labels the exceptions of a callee, as a caller that lets them
    propagate sees them. *)
Definition est_map_err {S E E' A} (f : E -> E') (c : est S E A) : est S E' A :=
  fun s => match c s with
           | (inl e, s') => (inl (f e), s')
           | (inr a, s') => (inr a, s')
           end.

Notation "x <- c ;; k" := (est_bind c (fun x => k))
  (at level 100, c at next level, right associativity) : kdp_scope.


(** ** Running composed computations *)
Section EstLemmas.
Context {S E A B : Type}.

Lemma est_bind_ok (c : est S E A) (k : A -> est S E B) s a s' :
  c s = (inr a, s') -> est_bind c k s = k a s'.
Proof. intros Hc. unfold est_bind. by rewrite Hc. Qed.

Lemma est_bind_err (c : est S E A) (k : A -> est S E B) s e s' :
  c s = (inl e, s') -> est_bind c k s = (inl e, s').
Proof. intros Hc. unfold est_bind. by rewrite Hc. Qed.

Lemma est_catch_ok (c : est S E A) h s a s' :
  c s = (inr a, s') -> est_catch c h s = (inr a, s').
Proof. intros Hc. unfold est_catch. by rewrite Hc. Qed.

Lemma est_catch_err (c : est S E A) h s e s' :
  c s = (inl e, s') -> est_catch c h s = h e s'.
Proof. intros Hc. unfold est_catch. by rewrite Hc. Qed.
End EstLemmas.

(** ** Lists queried by key (a table filtered on its primary key) *)
Lemma filter_none {A} (P : A -> Prop) `{!forall x, Decision (P x)} (l : list A) :
  (forall x, x ∈ l -> ~ P x) -> filter P l = [].
Proof.
  induction l as [|y l IH]; intros Hl; [done|]. rewrite filter_cons.
  rewrite decide_False by (apply Hl; left). apply IH. intros x Hx. apply Hl. by right.
Qed.

Lemma elem_of_fmap_key {A K} (f : A -> K) (l : list A) (x : A) :
  x ∈ l -> f x ∈ f <$> l.
Proof. intros Hx. apply list_elem_of_fmap. by exists x. Qed.
#[export] Hint Resolve elem_of_fmap_key : kdp.

Section KeyedLists.
Context {A K : Type} `{EqDecision K} (key : A -> K).

Lemma filter_key_unique (l : list A) (x : A) :
  NoDup (key <$> l) -> x ∈ l ->
  filter (fun y => key y = key x) l = [x].
Proof.
  induction l as [|y l IH]; intros Hnd Hin; [by apply elem_of_nil in Hin|].
  rewrite fmap_cons in Hnd. apply NoDup_cons in Hnd as [Hy Hnd].
  rewrite filter_cons. apply elem_of_cons in Hin as [->|Hin].
  - rewrite decide_True by done. f_equal.
    apply filter_none. intros z Hz Hk. apply Hy.
    rewrite <-Hk. by apply elem_of_fmap_key.
  - rewrite decide_False; [by apply IH|].
    intros Hk. apply Hy. rewrite Hk. by apply elem_of_fmap_key.
Qed.

Lemma filter_key_absent (l : list A) (k : K) :
  k ∉ key <$> l -> filter (fun y => key y = k) l = [].
Proof.
  intros Hk. apply filter_none. intros z Hz <-.
  apply Hk. by apply elem_of_fmap_key.
Qed.
End KeyedLists.

(** ** Tactics *)
Ltac invc H := inversion H; subst; clear H.
(** Name the state and result of a run [(res, s) = (o, s')] by the run. *)
Ltac run_inv H := injection H as <- <-.
(** Close a conjunction of boolean comparisons on [nat] by [lia]. *)
Ltac bool_lia :=
  repeat match goal with
  | |- (_ && _) = true => apply andb_true_intro; split
  | |- (_ <=? _) = true => apply Nat.leb_le
  | |- (_ <? _) = true => apply Nat.ltb_lt
  end; lia.
(** Prove a decidable proposition on a concrete input by evaluation. *)
Ltac decide_eval := apply (bool_decide_unpack _); vm_compute; exact I.
