(* ===== verification/Json.v ===== *)
(** * JSON values and HTTP responses

    The values the route handlers of [src/app/api/amazon/collect/route.ts]
    read from a request body ([await req.json()]) and write with
    [NextResponse.json(body, { status })].  Numbers are integers here: every
    number the route reads or writes is a count or a timestamp. *)
From S2P Require Import Prelude.

Module Json.

#[local] Set Warnings "-register-all".

Inductive json :=
  | JNull
  | JBool (b : bool)
  | JNumber (n : Z)
  | JString (s : string)
  | JArray (l : list json)
  | JObject (fields : list (string * json)).

(** Property access [o[k]] on a parsed JSON object: [JSON.parse] keeps the
    last of duplicated keys, so the last binding wins; [None] is
    [undefined]. *)
Definition jget (k : string) (v : json) : option json :=
  match v with
  | JObject fs =>
      foldl (fun acc kv => if bool_decide (kv.1 = k) then Some kv.2 else acc) None fs
  | _ => None
  end.

Definition jstr_opt (o : option string) : json :=
  match o with Some s => JString s | None => JNull end.

Definition jnat_opt (o : option nat) : json :=
  match o with Some n => JNumber (Z.of_nat n) | None => JNull end.

(** The response a handler returns: [NextResponse.json(body, { status })]. *)
Record response := mk_response { res_status : Z; res_body : json }.

(** [NextResponse.json(body)] answers 200 when no status is given. *)
Definition next_json (body : json) : response := mk_response 200 body.
Definition next_json_status (body : json) (status : Z) : response :=
  mk_response status body.

(** [{ error: msg }], the body of every error answer of the route. *)
Definition error_body (msg : string) : json := JObject [("error", JString msg)].

(** ** Shapes of JSON values

    The shapes the interface contract (spec section 6) gives the answers:
    [TNat] is a non-negative integer (a count or a timestamp), [TLit s]
    the string [s], [TTrue] the boolean [true]; an object shape lists its
    members in order, each required ([true]) or optional ([false]), and an
    object has the shape when its members are exactly those, in that
    order. *)
Inductive jtype :=
  | TAny
  | TNull
  | TBool
  | TTrue
  | TNat
  | TString
  | TLit (s : string)
  | TUnion (a b : jtype)
  | TArray (a : jtype)
  | TObject (fields : list (bool * string * jtype)).

Fixpoint has_type (t : jtype) (v : json) {struct t} : bool :=
  match t with
  | TAny => true
  | TNull => match v with JNull => true | _ => false end
  | TBool => match v with JBool _ => true | _ => false end
  | TTrue => match v with JBool true => true | _ => false end
  | TNat => match v with JNumber n => bool_decide (0 <= n)%Z | _ => false end
  | TString => match v with JString _ => true | _ => false end
  | TLit s => match v with JString s' => bool_decide (s' = s) | _ => false end
  | TUnion a b => has_type a v || has_type b v
  | TArray a => match v with JArray l => forallb (has_type a) l | _ => false end
  | TObject fs =>
      match v with
      | JObject ms =>
          (fix members (fs : list (bool * string * jtype)) (ms : list (string * json))
               {struct fs} : bool :=
             match fs, ms with
             | [], [] => true
             | [], _ :: _ => false
             | (req, k, a) :: fs', [] => negb req && members fs' []
             | (req, k, a) :: fs', (k', w) :: ms' =>
                 if bool_decide (k' = k) then has_type a w && members fs' ms'
                 else negb req && members fs' ms
             end) fs ms
      | _ => false
      end
  end.

Definition TNullable (a : jtype) : jtype := TUnion a TNull.

(** [{ error: string }] *)
Definition error_type : jtype := TObject [(true, "error", TString)].

Lemma has_type_jstr_opt o : has_type (TNullable TString) (jstr_opt o) = true.
Proof. by destruct o. Qed.

Lemma has_type_jnat_opt o : has_type (TNullable TNat) (jnat_opt o) = true.
Proof. destruct o; cbn; [|done]. rewrite bool_decide_true; [done|lia]. Qed.

Lemma has_type_nat n : has_type TNat (JNumber (Z.of_nat n)) = true.
Proof. cbn. rewrite bool_decide_true; [done|lia]. Qed.

Lemma has_type_error_body msg : has_type error_type (error_body msg) = true.
Proof. done. Qed.

Lemma jget_snoc k fs k' v :
  jget k (JObject (fs ++ [(k', v)])) =
  if bool_decide (k' = k) then Some v else jget k (JObject fs).
Proof. unfold jget. by rewrite foldl_app. Qed.

End Json.
