(* ===== verification/Validation.v ===== *)
(** * Validation of the collection request ([route.ts], lines 7-11 and 32-42)

    [collectRequestSchema] is a zod object schema; [safeParse] checks the
    fields in the order of the schema, collects every issue (it does not
    stop at the first) and, on success, returns the parsed object with the
    default of [method] filled in and unknown keys dropped.  The issue shapes
    and messages are those of zod 3. *)
From S2P Require Import Prelude Json.
#[local] Set Warnings "-clear-no-such-hyp".

Module Validation.
Import Json.

(** [z.enum(["api", "scraping"])] *)
Inductive collect_method := Api | Scraping.

#[export] Instance method_eq_dec : EqDecision collect_method.
Proof. solve_decision. Defined.

Definition method_name (m : collect_method) : string :=
  match m with Api => "api" | Scraping => "scraping" end.

Definition method_options : list string := ["api"; "scraping"].

(** [validation.data]: [{ keywords, category, method }]. *)
Record collect_request := mk_request {
  keywords : string;
  category : option string;
  method : collect_method
}.

(** [ZodIssue]: the code and the fields it carries, and the path. *)
Inductive issue_code :=
  | invalid_type (expected received : string)
  | invalid_type_enum (expected received : string)
  | too_small (minimum : nat)
  | invalid_enum_value (received : string) (options : list string).

Record issue := mk_issue { path : list string; code : issue_code }.

(** zod's [getParsedType]; [None] is [undefined]. *)
Definition parsed_type (v : option json) : string :=
  match v with
  | None => "undefined"
  | Some JNull => "null"
  | Some (JBool _) => "boolean"
  | Some (JNumber _) => "number"
  | Some (JString _) => "string"
  | Some (JArray _) => "array"
  | Some (JObject _) => "object"
  end.

(** [keywords: z.string().min(1)] *)
Definition parse_keywords (v : option json) : list issue + string :=
  match v with
  | Some (JString s) =>
      if String.length s <? 1 then inl [mk_issue ["keywords"] (too_small 1)]
      else inr s
  | _ => inl [mk_issue ["keywords"] (invalid_type "string" (parsed_type v))]
  end.

(** [category: z.string().optional()]: [undefined] passes, [null] does not. *)
Definition parse_category (v : option json) : list issue + option string :=
  match v with
  | None => inr None
  | Some (JString s) => inr (Some s)
  | Some _ => inl [mk_issue ["category"] (invalid_type "string" (parsed_type v))]
  end.

(** [method: z.enum(["api", "scraping"]).default("api")]: the default
    replaces [undefined] only; a non-string is an [invalid_type] issue, a
    string outside the enum an [invalid_enum_value] one. *)
Definition parse_method (v : option json) : list issue + collect_method :=
  match v with
  | None => inr Api
  | Some (JString s) =>
      if bool_decide (s = "api") then inr Api
      else if bool_decide (s = "scraping") then inr Scraping
      else inl [mk_issue ["method"] (invalid_enum_value s method_options)]
  | Some _ =>
      inl [mk_issue ["method"] (invalid_type_enum "'api' | 'scraping'" (parsed_type v))]
  end.

(** zod 3's default message of an [invalid_type] issue. *)
Definition invalid_type_message (exp recv : string) : string :=
  if bool_decide (recv = "undefined") then "Required" else "Expected " +:+ exp +:+ ", received " +:+ recv.

(** An issue as [validation.error.errors] serializes it: zod 3's code,
    path, default message and the fields of the code, in the order zod
    builds them ([makeIssue] spreads the issue data, then adds [path] and
    [message]): [ZodString] and [ZodObject] report [invalid_type] as
    [{code, expected, received}], [ZodEnum] as [{expected, received,
    code}]. *)
Definition issue_json (i : issue) : json :=
  let p := ("path", JArray (JString <$> path i)) in
  match code i with
  | invalid_type exp recv =>
      JObject [("code", JString "invalid_type"); ("expected", JString exp);
               ("received", JString recv); p;
               ("message", JString (invalid_type_message exp recv))]
  | invalid_type_enum exp recv =>
      JObject [("expected", JString exp); ("received", JString recv);
               ("code", JString "invalid_type"); p;
               ("message", JString (invalid_type_message exp recv))]
  | too_small n =>
      JObject [("code", JString "too_small"); ("minimum", JNumber (Z.of_nat n));
               ("type", JString "string"); ("inclusive", JBool true); ("exact", JBool false);
               ("message", JString ("String must contain at least " +:+ pretty n +:+ " character(s)"));
               p]
  | invalid_enum_value recv opts =>
      JObject [("received", JString recv); ("code", JString "invalid_enum_value");
               ("options", JArray (JString <$> opts)); p;
               ("message", JString ("Invalid enum value. Expected 'api' | 'scraping', received '"
                                    +:+ recv +:+ "'"))]
  end.

Definition issues_of {A} (r : list issue + A) : list issue :=
  match r with inl l => l | inr _ => [] end.

(** [collectRequestSchema.safeParse(body)] *)
Definition safeParse (body : json) : list issue + collect_request :=
  match body with
  | JObject _ =>
      let k := parse_keywords (jget "keywords" body) in
      let c := parse_category (jget "category" body) in
      let m := parse_method (jget "method" body) in
      match k, c, m with
      | inr k, inr c, inr m => inr (mk_request k c m)
      | _, _, _ => inl (issues_of k ++ issues_of c ++ issues_of m)
      end
  | _ => inl [mk_issue [] (invalid_type "object" (parsed_type (Some body)))]
  end.

(** What the schema accepts, field by field: a present non-empty string for
    [keywords], an absent or string [category], an absent (defaulting to
    ["api"]) or enumerated [method]. *)
Definition method_field (v : option json) (m : collect_method) : Prop :=
  v = Some (JString (method_name m)) \/ (v = None /\ m = Api).

Definition accepts (body : json) (r : collect_request) : Prop :=
  (exists fs, body = JObject fs) /\
  jget "keywords" body = Some (JString (keywords r)) /\ keywords r <> "" /\
  jget "category" body = JString <$> category r /\
  method_field (jget "method" body) (method r).

(** The body a well-behaved client sends for a request. *)
Definition encode_request (r : collect_request) : json :=
  JObject ([("keywords", JString (keywords r))] ++
           match category r with Some c => [("category", JString c)] | None => [] end ++
           [("method", JString (method_name (method r)))]).

(** ** Field parsers *)

Lemma parse_keywords_ok v k :
  parse_keywords v = inr k <-> v = Some (JString k) /\ k <> "".
Proof.
  destruct v as [[| | |s| |]|]; simpl; split; intros H; destruct_and?; simplify_eq; try done.
  - destruct s; simpl in H; by simplify_eq.
  - by destruct k.
Qed.

Lemma parse_category_ok v c :
  parse_category v = inr c <-> v = JString <$> c.
Proof.
  destruct v as [[]|], c; simpl; split; intros H; inversion H; subst; done.
Qed.

Lemma parse_method_ok v m :
  parse_method v = inr m <-> method_field v m.
Proof.
  unfold method_field.
  destruct v as [[| | |s| |]|]; simpl; destruct m; simpl;
    repeat case_bool_decide; subst; split; intros Hm; intuition congruence.
Qed.

Lemma safeParse_fields fs r :
  safeParse (JObject fs) = inr r <->
  parse_keywords (jget "keywords" (JObject fs)) = inr (keywords r) /\
  parse_category (jget "category" (JObject fs)) = inr (category r) /\
  parse_method (jget "method" (JObject fs)) = inr (method r).
Proof.
  simpl. destruct r as [k c m]; simpl.
  destruct (parse_keywords _), (parse_category _), (parse_method _);
    split; intros H; destruct_and?; simplify_eq; done.
Qed.

(** ** Properties *)

(** C30: [safeParse] succeeds exactly on the bodies the schema describes --
    an object whose [keywords] is a non-empty string, whose [category] is
    absent or a string, and whose [method] is absent (read as ["api"]) or
    one of ["api"], ["scraping"] -- and returns those fields. *)
Theorem safeParse_ok_iff body r :
  safeParse body = inr r <-> accepts body r.
Proof.
  unfold accepts. destruct body as [| | | | |fs]; try (simpl; split; [discriminate | naive_solver]).
  rewrite safeParse_fields, parse_keywords_ok, parse_category_ok, parse_method_ok.
  naive_solver.
Qed.

(** C31: a request encoded as the JSON body a client sends parses back to
    the same request when its keywords are non-empty; with empty keywords
    the one issue is [too_small] at path [keywords]. *)
Theorem safeParse_encode_request r :
  safeParse (encode_request r) =
  if bool_decide (keywords r = "") then inl [mk_issue ["keywords"] (too_small 1)]
  else inr r.
Proof.
  destruct r as [k [c|] []]; cbn; destruct k; reflexivity.
Qed.

(** C32: a body whose [keywords] is the empty string is rejected, whatever
    its other fields, and the issues name [keywords] with [too_small]. *)
Theorem safeParse_empty_keywords body :
  jget "keywords" body = Some (JString "") ->
  exists issues, safeParse body = inl issues /\
                 mk_issue ["keywords"] (too_small 1) ∈ issues.
Proof.
  intros Hk. destruct body as [| | | | |fs]; try discriminate.
  unfold safeParse. rewrite Hk.
  destruct (parse_category _), (parse_method _); simpl;
    eexists; split; try reflexivity; left.
Qed.

Lemma safeParse_empty_keywords_witness :
  jget "keywords" (JObject [("keywords", JString ""); ("method", JString "scraping")])
    = Some (JString "") /\
  exists issues,
    safeParse (JObject [("keywords", JString ""); ("method", JString "scraping")]) = inl issues /\
    mk_issue ["keywords"] (too_small 1) ∈ issues.
Proof.
  split; [reflexivity|]. apply safeParse_empty_keywords. reflexivity.
Defined.

End Validation.
