(* ===== verification/JobStore.v ===== *)
(** * The job store: the [data_collection_jobs] table

    The route reads this table directly (GET, [route.ts] lines 103-112) and
    the collection service writes it.  The service and the database are not
    under [src/]; the store contract is modelled from the spec (section 4.2):
    [create] allocates a fresh id and a [pending] row, [get] is an exact
    lookup, [update] applies a forward status transition and refuses the
    others.  The table is a list of rows in insertion order, queried the way
    PostgREST answers [.select("*").eq("id", jobId).single()]. *)
From S2P Require Import Prelude.
#[local] Set Warnings "-clear-no-such-hyp".

Module JobStore.

(** The values of the [job_type] column: the strategy that produced the job. *)
Inductive job_kind := JobApi | JobScraping.

(** [status]: [pending], [running], [completed], [failed]. *)
Inductive job_status := Pending | Running | Completed | Failed.

#[export] Instance job_kind_eq_dec : EqDecision job_kind.
Proof. solve_decision. Defined.
#[export] Instance job_status_eq_dec : EqDecision job_status.
Proof. solve_decision. Defined.

Definition job_type_name (t : job_kind) : string :=
  match t with JobApi => "api" | JobScraping => "scraping" end.

Definition status_name (s : job_status) : string :=
  match s with
  | Pending => "pending" | Running => "running"
  | Completed => "completed" | Failed => "failed"
  end.

Definition terminal (s : job_status) : bool :=
  match s with Completed | Failed => true | _ => false end.

(** [parameters]: the query, kept verbatim. *)
Record job_params := mk_params { prm_keywords : string; prm_category : option string }.

(** A row, with the column names of the table.  Timestamps are ticks of
    the store's clock. *)
Record job_row := mk_row {
  id : string;
  job_type : job_kind;
  status : job_status;
  category_id : option string;
  parameters : job_params;
  books_collected : nat;
  error_message : option string;
  started_at : option nat;
  completed_at : option nat;
  created_at : nat
}.

#[export] Instance job_params_eq_dec : EqDecision job_params.
Proof. solve_decision. Defined.
#[export] Instance job_row_eq_dec : EqDecision job_row.
Proof. solve_decision. Defined.

(** The database: its rows, the sequence that allocates ids, the clock
    that stamps rows, and whether it answers at all. *)
Record db := mk_db { rows : list job_row; next_seq : nat; clock : nat; online : bool }.

Inductive store_error := NotFound | InvalidTransition | StoreUnavailable.

(** Ids are opaque strings; the [n]-th allocated one is [fresh_id n]. *)
Definition fresh_id (n : nat) : string := "job_" +:+ pretty n.

(** ** The status machine: [pending -> running -> {completed, failed}] *)
Inductive status_step : job_status -> job_status -> Prop :=
  | step_start : status_step Pending Running
  | step_complete : status_step Running Completed
  | step_fail : status_step Running Failed.

Definition status_step_b (a b : job_status) : bool :=
  match a, b with
  | Pending, Running | Running, Completed | Running, Failed => true
  | _, _ => false
  end.

(** ** Operations *)

(** [.select("*").eq("id", jid).single()]: exactly one row, or an error. *)
Definition select_single (d : db) (jid : string) : store_error + job_row :=
  if online d then
    match filter (fun r => id r = jid) (rows d) with
    | [r] => inr r
    | _ => inl NotFound
    end
  else inl StoreUnavailable.

(** [create(jobType, parameters, categoryId)] *)
Definition create (jt : job_kind) (prm : job_params) (cat : option string)
  : est db store_error job_row :=
  fun d =>
    if online d then
      let r := mk_row (fresh_id (next_seq d)) jt Pending cat prm 0 None None None (clock d) in
      (inr r, mk_db (rows d ++ [r]) (S (next_seq d)) (S (clock d)) true)
    else (inl StoreUnavailable, d).

(** [get(id)] *)
Definition get (jid : string) : est db store_error job_row :=
  fun d => (select_single d jid, d).

(** [now]: reads the clock; every reading is later than the previous one. *)
Definition now {E} : est db E nat :=
  fun d => (inr (clock d), mk_db (rows d) (next_seq d) (S (clock d)) (online d)).

(** The fields an [update] sets: the new status, and the columns a
    transition writes ([None] leaves a column as it is). *)
Record job_patch := mk_patch {
  set_status : job_status;
  set_started_at : option nat;
  set_completed_at : option nat;
  set_books : option nat;
  set_error : option string
}.

Definition apply_patch (r : job_row) (p : job_patch) : job_row :=
  mk_row (id r) (job_type r) (set_status p) (category_id r) (parameters r)
    (default (books_collected r) (set_books p))
    (match set_error p with Some e => Some e | None => error_message r end)
    (match set_started_at p with Some t => Some t | None => started_at r end)
    (match set_completed_at p with Some t => Some t | None => completed_at r end)
    (created_at r).

(** A patch is admissible on a row in status [s] when it moves one step of
    the status machine and sets [completed_at] only on a terminal status. *)
Definition patch_ok (s : job_status) (p : job_patch) : bool :=
  status_step_b s (set_status p) &&
  match set_completed_at p with Some _ => terminal (set_status p) | None => true end.

Definition replace_row (jid : string) (r' : job_row) (l : list job_row) : list job_row :=
  (fun r => if bool_decide (id r = jid) then r' else r) <$> l.

(** [update(id, patch)]: a repeated transition to the status the row
    already has is a no-op; a backward or skipping one is refused and
    leaves the row as it was. *)
Definition update (jid : string) (p : job_patch) : est db store_error job_row :=
  fun d =>
    match select_single d jid with
    | inl e => (inl e, d)
    | inr r =>
        if bool_decide (status r = set_status p) then (inr r, d)
        else if patch_ok (status r) p then
          let r' := apply_patch r p in
          (inr r', mk_db (replace_row jid r' (rows d)) (next_seq d) (clock d) (online d))
        else (inl InvalidTransition, d)
    end.

(** Every operation on the store, and the database going down or coming
    back: the moves a concurrent world can make between two steps of one
    request. *)
Inductive store_step : db -> db -> Prop :=
  | ss_create jt prm cat d o d' : create jt prm cat d = (o, d') -> store_step d d'
  | ss_update jid p d o d' : update jid p d = (o, d') -> store_step d d'
  | ss_now d o d' : now (E:=store_error) d = (o, d') -> store_step d d'
  | ss_online d b : store_step d (mk_db (rows d) (next_seq d) (clock d) b).

(** A script of store calls, as the requests of the world issue them one
    after another, and its executable run. *)
Inductive store_op :=
  | OpCreate (jt : job_kind) (prm : job_params) (cat : option string)
  | OpUpdate (jid : string) (p : job_patch)
  | OpNow
  | OpOnline (b : bool).

Definition apply_op (d : db) (op : store_op) : db :=
  match op with
  | OpCreate jt prm cat => (create jt prm cat d).2
  | OpUpdate jid p => (update jid p d).2
  | OpNow => (now (E:=store_error) d).2
  | OpOnline b => mk_db (rows d) (next_seq d) (clock d) b
  end.

Definition run_ops (ops : list store_op) (d : db) : db := foldl apply_op d ops.

(** ** The invariant: ids are unique and were handed out by the sequence *)
Definition issued (d : db) : list string := fresh_id <$> seq 0 (next_seq d).

Definition ids_wf (d : db) : Prop :=
  NoDup (id <$> rows d) /\ Forall (fun r => id r ∈ issued d) (rows d).

#[export] Instance ids_wf_dec d : Decision (ids_wf d).
Proof. unfold ids_wf. apply _. Defined.

(** A row and a later version of it: same identity and query, a status
    reached by steps of the status machine. *)
Definition row_progress (r r' : job_row) : Prop :=
  id r' = id r /\ job_type r' = job_type r /\ parameters r' = parameters r /\
  created_at r' = created_at r /\ rtc status_step (status r) (status r').

(** The abstract store: a finite map from ids to rows. *)
Definition abs (d : db) : gmap string job_row :=
  list_to_map ((fun r => (id r, r)) <$> rows d).

Module Spec.
(** The store contract of the spec on the abstract map. *)
Definition get (m : gmap string job_row) (jid : string) : store_error + job_row :=
  match m !! jid with Some r => inr r | None => inl NotFound end.

Definition update (m : gmap string job_row) (jid : string) (p : job_patch)
  : (store_error + job_row) * gmap string job_row :=
  match m !! jid with
  | None => (inl NotFound, m)
  | Some r =>
      if bool_decide (status r = set_status p) then (inr r, m)
      else if patch_ok (status r) p then
        (inr (apply_patch r p), <[jid := apply_patch r p]> m)
      else (inl InvalidTransition, m)
  end.
End Spec.

(** ** Lemmas *)

Lemma fresh_id_inj m n : fresh_id m = fresh_id n -> m = n.
Proof. unfold fresh_id. intros H. apply (inj (String.append "job_")) in H. by apply (inj pretty). Qed.

Lemma ids_wf_alt d :
  ids_wf d <-> NoDup (id <$> rows d) /\
    forall r, r ∈ rows d -> exists k, k < next_seq d /\ id r = fresh_id k.
Proof.
  unfold ids_wf, issued. rewrite Forall_forall.
  assert (Hk : forall x, x ∈ fresh_id <$> seq 0 (next_seq d) <->
                         exists k, k < next_seq d /\ x = fresh_id k).
  { intros x. rewrite list_elem_of_fmap. setoid_rewrite elem_of_seq. naive_solver lia. }
  setoid_rewrite Hk. naive_solver.
Qed.

Lemma fresh_not_issued d : ids_wf d -> fresh_id (next_seq d) ∉ id <$> rows d.
Proof.
  intros [_ Hfr]%ids_wf_alt Hin. apply list_elem_of_fmap in Hin as (r & Hid & Hr).
  destruct (Hfr r Hr) as (k & Hk & Hid'). rewrite Hid' in Hid.
  apply fresh_id_inj in Hid. lia.
Qed.

Lemma status_step_b_spec a b : status_step_b a b = true <-> status_step a b.
Proof. split; [destruct a, b; simpl; try discriminate; constructor | by intros []]. Qed.

Lemma select_single_inv d jid r :
  select_single d jid = inr r ->
  online d = true /\ r ∈ rows d /\ id r = jid /\
  (forall r', r' ∈ rows d -> id r' = jid -> r' = r).
Proof.
  unfold select_single. destruct (online d); [|discriminate].
  destruct (filter _ _) as [|r0 [|]] eqn:Hf; intros H; try discriminate. invc H.
  assert (Hr : r ∈ filter (fun r => id r = jid) (rows d)) by (rewrite Hf; left).
  apply list_elem_of_filter in Hr as [Hid Hr]. repeat split; auto.
  intros r' Hr' Hid'. assert (Hin : r' ∈ filter (fun r => id r = jid) (rows d))
    by (by apply list_elem_of_filter).
  rewrite Hf in Hin. by apply list_elem_of_singleton in Hin.
Qed.

Lemma replace_row_ids jid r' l :
  id r' = jid -> id <$> replace_row jid r' l = id <$> l.
Proof.
  intros Hid. induction l as [|y l IH]; [done|]. unfold replace_row in *.
  rewrite !fmap_cons, IH. case_bool_decide; congruence.
Qed.

Lemma replace_row_elem jid r' l x :
  x ∈ replace_row jid r' l <->
  exists y, y ∈ l /\ x = if bool_decide (id y = jid) then r' else y.
Proof. unfold replace_row. rewrite list_elem_of_fmap. naive_solver. Qed.

Lemma row_progress_refl r : row_progress r r.
Proof. repeat split; constructor. Qed.

Lemma row_progress_trans r1 r2 r3 :
  row_progress r1 r2 -> row_progress r2 r3 -> row_progress r1 r3.
Proof.
  intros (?&?&?&?&H12) (?&?&?&?&H23). repeat split; try congruence.
  by eapply rtc_trans.
Qed.

#[export] Hint Resolve row_progress_refl status_step_b_spec : kdp.

(** The row just appended to the table, under an id no other row has. *)
Lemma replace_row_last jid r' l r :
  jid ∉ id <$> l -> id r = jid -> replace_row jid r' (l ++ [r]) = l ++ [r'].
Proof.
  intros Hl Hid. unfold replace_row. rewrite fmap_app, fmap_cons, fmap_nil.
  rewrite bool_decide_true by done. f_equal.
  induction l as [|y l IH]; [done|]. rewrite fmap_cons.
  rewrite fmap_cons in Hl. apply not_elem_of_cons in Hl as [Hy Hl].
  rewrite bool_decide_false by congruence. by rewrite IH.
Qed.

Lemma select_single_elem d r :
  NoDup (id <$> rows d) -> online d = true -> r ∈ rows d -> select_single d (id r) = inr r.
Proof. intros Hnd Hon Hr. unfold select_single. rewrite Hon. by rewrite (filter_key_unique id). Qed.

Lemma select_single_absent d jid :
  jid ∉ id <$> rows d \/ online d = false -> exists e, select_single d jid = inl e.
Proof.
  unfold select_single. intros Habs.
  destruct (online d) eqn:Hon; [|eexists; reflexivity].
  destruct Habs as [Hk|Hoff]; [|discriminate].
  rewrite filter_key_absent by done. eexists; reflexivity.
Qed.

Lemma fresh_id_nonempty n : fresh_id n <> "".
Proof. discriminate. Qed.

Lemma ids_wf_nonempty d r : ids_wf d -> r ∈ rows d -> id r <> "".
Proof.
  intros [_ Hfr]%ids_wf_alt Hr. destruct (Hfr r Hr) as (k & _ & ->). apply fresh_id_nonempty.
Qed.

Lemma select_single_last l s c r :
  id r ∉ id <$> l -> select_single (mk_db (l ++ [r]) s c true) (id r) = inr r.
Proof.
  intros Hl. unfold select_single; cbn [online rows].
  rewrite filter_app, filter_key_absent by done. by rewrite filter_cons_True.
Qed.

(** [update] answers with the row of the id it was given. *)
Lemma update_id jid p d r d' : update jid p d = (inr r, d') -> id r = jid.
Proof.
  unfold update. destruct (select_single d jid) as [e|r0] eqn:Hs; [discriminate|].
  apply select_single_inv in Hs as (_ & _ & Hid & _).
  case_bool_decide; [intros Hu; by injection Hu as <- _|].
  destruct (patch_ok _ _); intros Hu; [|discriminate]. by injection Hu as <- _.
Qed.

(** Frame lemmas: what an operation does not touch. *)
Lemma select_single_append_other d r s c jid :
  online d = true -> jid <> id r ->
  select_single (mk_db (rows d ++ [r]) s c true) jid = select_single d jid.
Proof.
  intros Hon Hne. unfold select_single. rewrite Hon. cbn [online rows].
  rewrite filter_app, filter_cons_False, filter_nil, app_nil_r by congruence. done.
Qed.

Lemma select_single_replace_other d jid r' jid' s c :
  id r' = jid -> jid' <> jid ->
  select_single (mk_db (replace_row jid r' (rows d)) s c (online d)) jid' = select_single d jid'.
Proof.
  intros Hid Hne. unfold select_single. cbn [online rows].
  assert (Hf : forall l, filter (fun r => id r = jid') (replace_row jid r' l) =
                         filter (fun r => id r = jid') l).
  { unfold replace_row. induction l as [|y l IH]; [done|].
    rewrite fmap_cons, !filter_cons, IH.
    case_bool_decide; [subst; rewrite !decide_False by congruence|]; done. }
  by rewrite Hf.
Qed.

Lemma update_step jid p d r :
  select_single d jid = inr r -> status r <> set_status p -> patch_ok (status r) p = true ->
  update jid p d =
  (inr (apply_patch r p),
   mk_db (replace_row jid (apply_patch r p) (rows d)) (next_seq d) (clock d) (online d)).
Proof. intros Hs Hne Hok. unfold update. rewrite Hs, bool_decide_false by done. by rewrite Hok. Qed.

Lemma select_single_replace_self d jid r p :
  ids_wf d -> select_single d jid = inr r ->
  select_single (mk_db (replace_row jid (apply_patch r p) (rows d)) (next_seq d) (clock d) (online d))
    jid = inr (apply_patch r p).
Proof.
  intros Hwf Hs. pose proof Hs as (Hon & Hr & Hid & _)%select_single_inv.
  assert (Hid' : id (apply_patch r p) = jid) by done.
  rewrite <-Hid' at 2. apply select_single_elem; cbn [rows online]; [|done|].
  - rewrite replace_row_ids by done. apply Hwf.
  - apply replace_row_elem. exists r. by rewrite bool_decide_true.
Qed.

Lemma update_last l s c r p :
  id r ∉ id <$> l -> status r <> set_status p -> patch_ok (status r) p = true ->
  update (id r) p (mk_db (l ++ [r]) s c true) =
  (inr (apply_patch r p), mk_db (l ++ [apply_patch r p]) s c true).
Proof.
  intros Hl Hne Hok. unfold update. rewrite select_single_last by done.
  rewrite bool_decide_false by done. rewrite Hok. cbn [rows next_seq clock online].
  by rewrite replace_row_last.
Qed.

Section Lookup.
Variable d : db.
Hypothesis Hnd : NoDup (id <$> rows d).

Lemma abs_lookup k r : abs d !! k = Some r <-> r ∈ rows d /\ id r = k.
Proof.
  unfold abs. rewrite <-elem_of_list_to_map.
  - rewrite list_elem_of_fmap. naive_solver.
  - by rewrite <-list_fmap_compose.
Qed.

Lemma select_single_abs jid :
  online d = true -> select_single d jid = Spec.get (abs d) jid.
Proof.
  intros Hon. unfold Spec.get. destruct (abs d !! jid) as [r|] eqn:Ha.
  - apply abs_lookup in Ha as [Hr <-]. unfold select_single. rewrite Hon.
    by rewrite (filter_key_unique id).
  - unfold select_single. rewrite Hon, filter_key_absent; [done|].
    intros Hk. apply list_elem_of_fmap in Hk as (r & -> & Hr).
    assert (abs d !! id r = Some r) by (by apply abs_lookup). congruence.
Qed.

Lemma abs_replace jid r0 r' :
  r0 ∈ rows d -> id r0 = jid -> id r' = jid ->
  abs (mk_db (replace_row jid r' (rows d)) (next_seq d) (clock d) (online d)) =
  <[jid := r']> (abs d).
Proof.
  intros Hr0 Hid0 Hid'. apply map_eq. intros k. apply option_eq. intros x.
  assert (Hnd' : NoDup (id <$> replace_row jid r' (rows d)))
    by (by rewrite replace_row_ids).
  pose proof (abs_lookup k x) as Hold.
  unfold abs in *; simpl. rewrite <-elem_of_list_to_map
    by (by rewrite <-list_fmap_compose).
  rewrite list_elem_of_fmap.
  destruct (decide (jid = k)) as [<-|Hne].
  - rewrite lookup_insert_eq. split.
    + intros (y & Heq & Hx). injection Heq as Hk Hxy. subst x.
      apply replace_row_elem in Hx as (z & Hz & ->).
      revert Hk. case_bool_decide; [done|congruence].
    + intros [= <-]. exists r'. split; [by rewrite Hid'|].
      apply replace_row_elem. exists r0. by rewrite bool_decide_true.
  - rewrite lookup_insert_ne by done. rewrite Hold. split.
    + intros (y & Heq & Hx). injection Heq as Hk Hxy. subst x.
      apply replace_row_elem in Hx as (z & Hz & ->).
      revert Hk. case_bool_decide; [congruence|done].
    + intros [Hx <-]. exists x. split; [done|].
      apply replace_row_elem. exists x. by rewrite bool_decide_false.
Qed.
End Lookup.

(** The rank of a status: the number of steps it is from [pending]. *)
Definition status_rank (s : job_status) : nat :=
  match s with Pending => 0 | Running => 1 | Completed | Failed => 2 end.

Lemma status_step_rank a b : status_step a b -> status_rank a < status_rank b.
Proof. intros []; simpl; lia. Qed.

(** Appending a row under the next id of the sequence keeps ids unique. *)
Lemma ids_wf_append_fresh d r c b :
  ids_wf d -> id r = fresh_id (next_seq d) ->
  ids_wf (mk_db (rows d ++ [r]) (S (next_seq d)) c b).
Proof.
  intros Hwf Hid. pose proof (fresh_not_issued d Hwf) as Hfresh.
  apply ids_wf_alt in Hwf as [Hnd Hfr]. apply ids_wf_alt; cbn [rows next_seq]. split.
  - rewrite fmap_app. apply NoDup_app. split; [done|]. split; [|apply NoDup_singleton].
    intros x Hx ->%list_elem_of_singleton. rewrite Hid in Hx. done.
  - intros r' [Hr | ->%list_elem_of_singleton]%elem_of_app.
    + destruct (Hfr r' Hr) as (k & ? & ?). exists k. split; [lia|done].
    + exists (next_seq d). split; [lia|done].
Qed.

Lemma create_ids_wf jt prm cat d o d' :
  create jt prm cat d = (o, d') -> ids_wf d -> ids_wf d'.
Proof.
  unfold create. destruct (online d); intros H Hwf; run_inv H; [|done].
  by apply ids_wf_append_fresh.
Qed.

(** Rewriting the row of an existing id keeps ids unique. *)
Lemma ids_wf_replace d jid r r' c b :
  ids_wf d -> select_single d jid = inr r -> id r' = jid ->
  ids_wf (mk_db (replace_row jid r' (rows d)) (next_seq d) c b).
Proof.
  intros Hwf Hs Hid'. apply select_single_inv in Hs as (_ & Hr & Hid & _).
  apply ids_wf_alt in Hwf as [Hnd Hfr]. apply ids_wf_alt; cbn [rows next_seq]. split.
  - by rewrite replace_row_ids.
  - intros x (y & Hy & ->)%replace_row_elem. case_bool_decide; [|auto].
    destruct (Hfr r Hr) as (k & ? & ?). exists k. split; [done|]. congruence.
Qed.

Lemma update_ids_wf jid p d o d' :
  update jid p d = (o, d') -> ids_wf d -> ids_wf d'.
Proof.
  unfold update. destruct (select_single d jid) as [e|r] eqn:Hs; intros H Hwf; [by run_inv H|].
  repeat case_bool_decide; [by run_inv H|].
  destruct (patch_ok _ _); run_inv H; [|done].
  apply (ids_wf_replace d jid r); [done|done|].
  by apply select_single_inv in Hs as (_ & _ & <- & _).
Qed.

(** How one row of the store fares under [update]: rewritten by one step
    of the status machine, or left as it was. *)
Lemma update_rows_progress jid p d o d' r :
  update jid p d = (o, d') -> r ∈ rows d ->
  exists r', r' ∈ rows d' /\ row_progress r r'.
Proof.
  unfold update. destruct (select_single d jid) as [e|r0] eqn:Hs; intros H Hr;
    [run_inv H; eauto with kdp|].
  apply select_single_inv in Hs as (_ & Hr0 & Hid0 & Huniq).
  repeat case_bool_decide; [run_inv H; eauto with kdp|].
  destruct (patch_ok _ _) eqn:Hok; run_inv H; [|eauto with kdp]. simpl.
  exists (if bool_decide (id r = jid) then apply_patch r0 p else r). split.
  - apply replace_row_elem. by exists r.
  - case_bool_decide; [|apply row_progress_refl].
    rewrite (Huniq r) by done. apply andb_true_iff in Hok as [Hstep _].
    repeat split; simpl; try done. apply rtc_once. by apply status_step_b_spec.
Qed.

(** Every run of a script is a sequence of store steps. *)
Lemma apply_op_step d op : store_step d (apply_op d op).
Proof.
  destruct op as [jt prm cat|jid p| |b]; cbn [apply_op].
  - exact (ss_create jt prm cat d _ _ (surjective_pairing _)).
  - exact (ss_update jid p d _ _ (surjective_pairing _)).
  - exact (ss_now d _ _ (surjective_pairing _)).
  - apply ss_online.
Qed.

Lemma run_ops_rtc ops d : rtc store_step d (run_ops ops d).
Proof.
  revert d. induction ops as [|op ops IH]; intros d; [apply rtc_refl|].
  eapply rtc_l; [apply apply_op_step|]. apply IH.
Qed.

(** An update of an existing job either leaves the store as it was, or
    moves the job one step of the status machine. *)
Lemma update_progress jid p d r o d' :
  select_single d jid = inr r -> update jid p d = (o, d') ->
  d' = d \/ (status_step (status r) (set_status p) /\
             d' = mk_db (replace_row jid (apply_patch r p) (rows d)) (next_seq d) (clock d) (online d)).
Proof.
  intros Hs. unfold update. rewrite Hs. case_bool_decide as Heq; [intros H; run_inv H; by left|].
  destruct (patch_ok (status r) p) eqn:Hok; intros H; run_inv H; [right|by left].
  split; [|done]. apply status_step_b_spec. unfold patch_ok in Hok. by apply andb_prop in Hok as [? _].
Qed.

Lemma store_step_rows d d' r :
  store_step d d' -> r ∈ rows d -> exists r', r' ∈ rows d' /\ row_progress r r'.
Proof.
  intros Hstep Hr. destruct Hstep as [jt prm cat d o d' H|jid p d o d' H|d o d' H|d b].
  - unfold create in H. destruct (online d); run_inv H; exists r; split; eauto with kdp.
    simpl. apply elem_of_app. by left.
  - by eapply update_rows_progress.
  - run_inv H. eauto with kdp.
  - eauto with kdp.
Qed.

(** ** Properties of the store *)

(** C22: the id invariant -- ids are pairwise distinct and each was handed
    out by the id sequence before its current value -- holds after every
    store operation and every change of availability. *)
Theorem ids_wf_preserved d d' : store_step d d' -> ids_wf d -> ids_wf d'.
Proof.
  intros [jt prm cat d0 o d1 H|jid p d0 o d1 H|d0 o d1 H|d0 b].
  - by eapply create_ids_wf.
  - by eapply update_ids_wf.
  - run_inv H. done.
  - done.
Qed.

Lemma ids_wf_preserved_witness :
  store_step (mk_db [] 0 0 true)
    (create JobApi (mk_params "gardening" None) None (mk_db [] 0 0 true)).2 /\
  ids_wf (mk_db [] 0 0 true) /\
  ids_wf (create JobApi (mk_params "gardening" None) None (mk_db [] 0 0 true)).2.
Proof.
  split; [eapply (ss_create JobApi (mk_params "gardening" None) None); reflexivity|].
  split; [decide_eval|].
  apply (ids_wf_preserved (mk_db [] 0 0 true));
    [eapply (ss_create JobApi (mk_params "gardening" None) None); reflexivity | decide_eval].
Defined.

(** C21: along any sequence of store operations no job row is ever deleted,
    its id, job type, parameters and creation time never change, and its
    status only moves forward along [pending -> running -> completed|failed]:
    a status is never re-entered after it is left. *)
Theorem store_rows_progress d d' r :
  rtc store_step d d' -> r ∈ rows d ->
  exists r', r' ∈ rows d' /\ row_progress r r' /\
    (status r' = status r \/ status_rank (status r) < status_rank (status r')).
Proof.
  intros Hsteps. revert r. induction Hsteps as [d|d1 d2 d3 H12 H23 IH]; intros r Hr.
  - exists r. split; [done|]. split; [apply row_progress_refl|by left].
  - destruct (store_step_rows d1 d2 r H12 Hr) as (r2 & Hr2 & Hp12).
    destruct (IH r2 Hr2) as (r3 & Hr3 & Hp23 & _).
    exists r3. split; [done|]. pose proof (row_progress_trans _ _ _ Hp12 Hp23) as Hp.
    split; [done|]. destruct Hp as (_&_&_&_&Hrtc). clear -Hrtc.
    induction Hrtc as [|a b c Hab Hbc IHbc]; [by left|].
    apply status_step_rank in Hab. right. destruct IHbc as [<-|]; lia.
Qed.

(** A store with one pending job, and a script that creates a second job,
    starts and completes the first, and takes the store down. *)
Definition pending_job : job_row :=
  mk_row "job_0" JobApi Pending None (mk_params "gardening" None) 0 None None None 0.

Definition one_job : db := mk_db [pending_job] 1 1 true.

Definition progress_script : list store_op :=
  [OpCreate JobScraping (mk_params "knitting" None) None;
   OpUpdate "job_0" (mk_patch Running (Some 2) None None None);
   OpNow;
   OpUpdate "job_0" (mk_patch Completed None (Some 3) (Some 4) None);
   OpOnline false].

Lemma store_rows_progress_witness :
  rtc store_step one_job (run_ops progress_script one_job) /\
  pending_job ∈ rows one_job /\
  exists r', r' ∈ rows (run_ops progress_script one_job) /\ row_progress pending_job r' /\
    (status r' = status pending_job \/ status_rank (status pending_job) < status_rank (status r')).
Proof.
  split; [apply run_ops_rtc|]. split; [left|].
  apply (store_rows_progress one_job); [apply run_ops_rtc | left].
Defined.

(** C23: an [update] that would move a job backward or skip a status, or set
    [completed_at] on a non-terminal status, is refused with
    [InvalidTransition] and leaves the store as it was. *)
Theorem update_rejects_invalid d jid p r :
  select_single d jid = inr r -> status r <> set_status p ->
  (~ status_step (status r) (set_status p) \/
   (is_Some (set_completed_at p) /\ terminal (set_status p) = false)) ->
  update jid p d = (inl InvalidTransition, d).
Proof.
  intros Hs Hne Hbad. unfold update. rewrite Hs, bool_decide_false by done.
  unfold patch_ok. destruct (status_step_b _ _) eqn:Hb; [|done].
  apply status_step_b_spec in Hb. destruct Hbad as [|[[t ->] ->]]; done.
Qed.

Lemma update_rejects_invalid_witness :
  let d := mk_db [mk_row "job_0" JobApi Completed None (mk_params "gardening" None)
                    3 None (Some 1) (Some 2) 0] 1 3 true in
  let p := mk_patch Running (Some 4) None None None in
  select_single d "job_0" =
    inr (mk_row "job_0" JobApi Completed None (mk_params "gardening" None) 3 None (Some 1) (Some 2) 0) /\
  update "job_0" p d = (inl InvalidTransition, d).
Proof.
  simpl. split; [reflexivity|].
  apply (update_rejects_invalid _ _ _
    (mk_row "job_0" JobApi Completed None (mk_params "gardening" None) 3 None (Some 1) (Some 2) 0));
    [reflexivity | simpl; discriminate | left; simpl; inversion 1].
Defined.

(** C29: on a well-formed, available store, [create] succeeds with a fresh
    id and a [pending] row stamped with the current clock, [completed_at]
    and [started_at] unset; an immediate [get] of that id returns the same
    row; and the abstract map gains exactly that entry. *)
Theorem create_then_get jt prm cat d :
  ids_wf d -> online d = true ->
  exists r d', create jt prm cat d = (inr r, d') /\
    status r = Pending /\ job_type r = jt /\ parameters r = prm /\
    created_at r = clock d /\ started_at r = None /\ completed_at r = None /\
    get (id r) d' = (inr r, d') /\
    abs d !! id r = None /\ abs d' = <[id r := r]> (abs d).
Proof.
  intros Hwf Hon. unfold create. rewrite Hon.
  eexists _, _. split; [reflexivity|]. do 6 (split; [done|]).
  pose proof (fresh_not_issued d Hwf) as Hfresh.
  assert (Habs : abs d !! fresh_id (next_seq d) = None).
  { destruct (abs d !! _) as [x|] eqn:Hx; [|done]. exfalso.
    apply abs_lookup in Hx as [Hx Hid]; [|apply Hwf].
    rewrite <-Hid in Hfresh. by apply Hfresh, elem_of_fmap_key. }
  split; [|split; [done|]].
  - unfold get. by rewrite select_single_last.
  - unfold abs; simpl. rewrite fmap_app. simpl. apply list_to_map_snoc.
    by rewrite <-list_fmap_compose.
Qed.

Lemma create_then_get_witness :
  ids_wf (mk_db [] 0 0 true) /\ online (mk_db [] 0 0 true) = true /\
  exists r d', create JobApi (mk_params "gardening" None) None (mk_db [] 0 0 true) = (inr r, d') /\
    status r = Pending /\ job_type r = JobApi /\ parameters r = mk_params "gardening" None /\
    created_at r = 0 /\ started_at r = None /\ completed_at r = None /\
    get (id r) d' = (inr r, d') /\
    abs (mk_db [] 0 0 true) !! id r = None /\ abs d' = <[id r := r]> (abs (mk_db [] 0 0 true)).
Proof.
  split; [decide_eval|]. split; [reflexivity|].
  apply create_then_get; [decide_eval | reflexivity].
Defined.

(** C28: refinement of the store contract -- on a well-formed, available
    store, [update] answers as the abstract [Spec.update] on the finite map
    of rows, and leaves the store whose map is the abstract result; [get]
    answers as [Spec.get]. *)
Theorem update_refines d jid p :
  ids_wf d -> online d = true ->
  (update jid p d).1 = (Spec.update (abs d) jid p).1 /\
  abs (update jid p d).2 = (Spec.update (abs d) jid p).2 /\
  (get jid d).1 = Spec.get (abs d) jid.
Proof.
  intros [Hnd _] Hon. unfold update, get, Spec.update. simpl.
  rewrite select_single_abs by done. unfold Spec.get.
  destruct (abs d !! jid) as [r|] eqn:Ha; [|done].
  case_bool_decide; [done|]. destruct (patch_ok _ _); [|done]. simpl.
  apply abs_lookup in Ha as [Hr Hid]; [|done].
  split; [done|]. split; [|done]. by apply (abs_replace d Hnd jid r).
Qed.

Lemma update_refines_witness :
  let d := mk_db [mk_row "job_0" JobApi Pending None (mk_params "gardening" None)
                    0 None None None 0] 1 1 true in
  ids_wf d /\ online d = true /\
  (update "job_0" (mk_patch Running (Some 1) None None None) d).1 =
    (Spec.update (abs d) "job_0" (mk_patch Running (Some 1) None None None)).1 /\
  abs (update "job_0" (mk_patch Running (Some 1) None None None) d).2 =
    (Spec.update (abs d) "job_0" (mk_patch Running (Some 1) None None None)).2 /\
  (get "job_0" d).1 = Spec.get (abs d) "job_0".
Proof.
  cbv zeta. split; [decide_eval|]. split; [reflexivity|].
  apply update_refines; [decide_eval | reflexivity].
Defined.

End JobStore.
