(* ===== verification/StoreOrdering.v ===== *)
(** * Ordering guarantees of the job store (spec sections 3 and 5)

    The store is the only shared mutable resource.  Per job, transitions
    are totally ordered and end: the status machine has no infinite chain
    and its only dead ends are the terminal statuses.  Updates of the same
    job are serialized: of two racing terminal transitions the first wins
    and the second is refused, and a duplicated update is a no-op.  Across
    jobs, creation order is the order of [createdAt], and every stored
    [createdAt] is below the clock, so a later [now()] is later than every
    creation.  All of it holds of [JobStore.update], [JobStore.create] and
    [JobStore.now] as modelled there. *)
From S2P Require Import Prelude JobStore.
From Stdlib Require Import Sorting.Sorted.

Module StoreOrdering.
Import JobStore.

(** Jobs in creation order have strictly increasing [createdAt], all below
    the clock. *)
Definition created_order (d : db) : Prop :=
  StronglySorted lt (created_at <$> rows d) /\ Forall (fun r => created_at r < clock d) (rows d).

(** The status of job [jid] as a read of the store sees it. *)
Definition status_of (jid : string) (d : db) : option job_status :=
  match select_single d jid with inr r => Some (status r) | inl _ => None end.

(** Updates of job [jid] applied one after another, and how many of them
    changed the job's status. *)
Fixpoint status_changes (jid : string) (ps : list job_patch) (d : db) : nat :=
  match ps with
  | [] => 0
  | p :: ps =>
      let d' := (update jid p d).2 in
      (if bool_decide (status_of jid d' = status_of jid d) then 0 else 1) + status_changes jid ps d'
  end.

Lemma status_rank_le s : status_rank s <= 2.
Proof. destruct s; simpl; lia. Qed.

Lemma patch_ok_running_terminal p : patch_ok Running p = true -> terminal (set_status p) = true.
Proof. destruct p as [[] ? ? ? ?]; by compute. Qed.

Lemma apply_patch_status r p : status (apply_patch r p) = set_status p.
Proof. done. Qed.

(** An update either leaves the store as it was, or replaces the job's one
    row by its patched version. *)
Lemma update_cases jid p d o d' :
  update jid p d = (o, d') ->
  d' = d \/ exists r, select_single d jid = inr r /\ o = inr (apply_patch r p) /\
    d' = mk_db (replace_row jid (apply_patch r p) (rows d)) (next_seq d) (clock d) (online d).
Proof.
  unfold update. destruct (select_single d jid) as [e|r] eqn:Hs; [intros H; run_inv H; by left|].
  case_bool_decide as Heq; [intros H; run_inv H; by left|].
  destruct (patch_ok _ _); intros H; run_inv H; [right; by exists r | by left].
Qed.

Lemma replace_row_created jid r r' d :
  select_single d jid = inr r -> created_at r' = created_at r ->
  created_at <$> replace_row jid r' (rows d) = created_at <$> rows d.
Proof.
  intros Hs Hc. apply select_single_inv in Hs as (_ & _ & Hid & Huniq).
  unfold replace_row. rewrite <-list_fmap_compose. apply list_fmap_ext.
  intros i x Hx%list_elem_of_lookup_2. cbn. case_bool_decide as Hx'; [|done].
  by rewrite (Huniq x Hx Hx').
Qed.

Lemma strongly_sorted_snoc (l : list nat) x :
  StronglySorted lt l -> Forall (fun y => y < x) l -> StronglySorted lt (l ++ [x]).
Proof.
  induction l as [|y l IH]; intros Hs Hf; cbn; [by repeat constructor|].
  apply StronglySorted_inv in Hs as [Hs Hy]. apply Forall_cons in Hf as [Hyx Hf].
  constructor; [by apply IH|]. apply Forall_app. split; [done|]. by constructor.
Qed.

Lemma create_created_order jt prm cat d o d' :
  create jt prm cat d = (o, d') -> created_order d -> created_order d'.
Proof.
  unfold create. destruct (online d); intros H [Hs Hf]; run_inv H; [|done].
  split; cbn [rows clock].
  - rewrite fmap_app. apply strongly_sorted_snoc; [done|].
    apply Forall_fmap. eapply Forall_impl; [exact Hf|]. done.
  - apply Forall_app. split; [eapply Forall_impl; [exact Hf|]; cbn; lia|]. constructor; cbn; [lia|done].
Qed.

Lemma update_created_order jid p d o d' :
  update jid p d = (o, d') -> created_order d -> created_order d'.
Proof.
  intros [-> | (r & Hs & _ & ->)]%update_cases; [done|]. intros [Hsort Hf]. split; cbn [rows clock].
  - by rewrite (replace_row_created jid r (apply_patch r p) d Hs).
  - apply Forall_fmap. eapply Forall_impl; [exact Hf|]. cbn. intros x Hx.
    case_bool_decide; [|done]. apply select_single_inv in Hs as (_ & Hr & _).
    rewrite Forall_forall in Hf. exact (Hf r Hr).
Qed.

Lemma store_step_created_order d d' : store_step d d' -> created_order d -> created_order d'.
Proof.
  destruct 1 as [jt prm cat d o d' H|jid p d o d' H|d o d' H|d b].
  - by apply (create_created_order jt prm cat d o d').
  - by apply (update_created_order jid p d o d').
  - unfold now in H. run_inv H. intros [Hs Hf]. split; [done|].
    eapply Forall_impl; [exact Hf|]. cbn. lia.
  - done.
Qed.

(** ** Properties *)

(** C24: serialization of racing terminal transitions.  When two updates
    race to end the same running job -- say, a completion and a failure
    -- the first one applied wins and is stored; the second is a no-op
    answering the stored row when it asks for the same status, and is
    refused with [InvalidTransition] otherwise.  Either way the second
    leaves the store as the first left it. *)
Theorem terminal_race_first_wins d jid r p1 p2 :
  ids_wf d -> select_single d jid = inr r -> status r = Running -> patch_ok Running p1 = true ->
  let '(o1, d1) := update jid p1 d in
  let '(o2, d2) := update jid p2 d1 in
  o1 = inr (apply_patch r p1) /\
  o2 = (if bool_decide (set_status p2 = set_status p1) then inr (apply_patch r p1)
        else inl InvalidTransition) /\
  d2 = d1 /\ select_single d2 jid = inr (apply_patch r p1).
Proof.
  intros Hwf Hs Hrun Hok.
  assert (Hne : status r <> set_status p1).
  { rewrite Hrun. intros Heq. pose proof (patch_ok_running_terminal p1 Hok). by rewrite <-Heq in *. }
  rewrite (update_step jid p1 d r Hs Hne) by by rewrite Hrun.
  pose proof (select_single_replace_self d jid r p1 Hwf Hs) as Hs1.
  unfold update at 1. rewrite Hs1, apply_patch_status.
  case_bool_decide as Heq; [by rewrite bool_decide_true by done|].
  rewrite bool_decide_false by done.
  assert (Hterm : patch_ok (set_status p1) p2 = false).
  { pose proof (patch_ok_running_terminal p1 Hok).
    destruct p1 as [[] ? ? ? ?], p2 as [[] ? ? ? ?]; by compute in *. }
  by rewrite Hterm.
Qed.

(** C25: a duplicated update is idempotent.  Applying the same update
    twice -- a retried or duplicated request -- answers and leaves the
    store exactly as applying it once, on every path: not found,
    unavailable, refused, no-op or effective. *)
Theorem update_idempotent d jid p :
  ids_wf d -> update jid p (update jid p d).2 = update jid p d.
Proof.
  intros Hwf. destruct (update jid p d) as [o d'] eqn:Hu. cbn [snd].
  destruct (update_cases jid p d o d' Hu) as [-> | (r & Hs & -> & ->)]; [done|].
  unfold update at 1. rewrite (select_single_replace_self d jid r p Hwf Hs).
  by rewrite bool_decide_true by done.
Qed.

(** C26: termination of the updates of a job.  Whatever sequence of
    updates is applied to a job -- by any number of requests, with any
    patches -- [update] changes the job's status at most [2 - rank] times
    (rank 0 for pending, 1 for running, 2 for completed or failed): no
    sequence of updates keeps changing a job, and once it has ended every
    further update is refused or a no-op. *)
Theorem updates_terminate d jid r ps :
  ids_wf d -> select_single d jid = inr r ->
  status_changes jid ps d <= 2 - status_rank (status r).
Proof.
  revert d r. induction ps as [|p ps IH]; intros d r Hwf Hs; [cbn; lia|].
  cbn [status_changes]. destruct (update jid p d) as [o d'] eqn:Hu. cbn [snd].
  destruct (update_progress jid p d r o d' Hs Hu) as [-> | (Hstep & ->)].
  - rewrite bool_decide_true by done. cbn. by apply IH.
  - pose proof (select_single_replace_self d jid r p Hwf Hs) as Hs'.
    pose proof Hs as (_ & _ & Hid & _)%select_single_inv.
    pose proof (IH _ _ (ids_wf_replace d jid r (apply_patch r p) (clock d) (online d) Hwf Hs Hid) Hs').
    unfold status_of. rewrite Hs', Hs, bool_decide_false by (intros [= Heq]; rewrite Heq in Hstep;
      by apply status_step_rank, Nat.lt_irrefl in Hstep).
    pose proof (status_step_rank _ _ Hstep). pose proof (status_rank_le (set_status p)).
    rewrite apply_patch_status in *. lia.
Qed.

(** C27: creation order and the clock.  Along any sequence of store
    operations, the jobs' [createdAt] strictly increase in creation order
    (the order of the rows) and stay below the clock, so a job created
    later has a later [createdAt], and every [now()] reading is later than
    every creation. *)
Theorem store_created_order d d' :
  created_order d -> rtc store_step d d' -> created_order d'.
Proof.
  intros Hd Hsteps. induction Hsteps as [|d1 d2 d3 Hstep _ IH]; [done|].
  apply IH. by apply (store_step_created_order d1 d2).
Qed.

(** ** Witnesses *)

(** Two jobs: the first running, the second pending. *)
Definition two_jobs : db :=
  mk_db [mk_row "job_0" JobApi Running None (mk_params "gardening" None) 0 None (Some 1) None 0;
         mk_row "job_1" JobScraping Pending None (mk_params "knitting" None) 0 None None None 2]
        2 3 true.

Definition complete_5 : job_patch := mk_patch Completed None (Some 3) (Some 5) None.
Definition fail_throttled : job_patch :=
  mk_patch Failed None (Some 4) None (Some "RateLimitError: marketplace throttled the request").

Lemma terminal_race_first_wins_witness :
  ids_wf two_jobs /\
  select_single two_jobs "job_0" =
    inr (mk_row "job_0" JobApi Running None (mk_params "gardening" None) 0 None (Some 1) None 0) /\
  status (mk_row "job_0" JobApi Running None (mk_params "gardening" None) 0 None (Some 1) None 0) =
    Running /\
  patch_ok Running complete_5 = true /\
  let '(o1, d1) := update "job_0" complete_5 two_jobs in
  let '(o2, d2) := update "job_0" fail_throttled d1 in
  o1 = inr (apply_patch (mk_row "job_0" JobApi Running None (mk_params "gardening" None)
                           0 None (Some 1) None 0) complete_5) /\
  o2 = (if bool_decide (set_status fail_throttled = set_status complete_5)
        then inr (apply_patch (mk_row "job_0" JobApi Running None (mk_params "gardening" None)
                                 0 None (Some 1) None 0) complete_5)
        else inl InvalidTransition) /\
  d2 = d1 /\
  select_single d2 "job_0" =
    inr (apply_patch (mk_row "job_0" JobApi Running None (mk_params "gardening" None)
                        0 None (Some 1) None 0) complete_5).
Proof.
  split; [decide_eval|]. split; [reflexivity|]. split; [reflexivity|]. split; [reflexivity|].
  apply terminal_race_first_wins; [decide_eval | reflexivity | reflexivity | reflexivity].
Defined.

Lemma updates_terminate_witness :
  ids_wf two_jobs /\
  select_single two_jobs "job_0" =
    inr (mk_row "job_0" JobApi Running None (mk_params "gardening" None) 0 None (Some 1) None 0) /\
  status_changes "job_0" [complete_5; fail_throttled; mk_patch Running (Some 5) None None None] two_jobs
    <= 2 - status_rank (status (mk_row "job_0" JobApi Running None (mk_params "gardening" None)
                                  0 None (Some 1) None 0)).
Proof.
  split; [decide_eval|]. split; [reflexivity|].
  apply updates_terminate; [decide_eval | reflexivity].
Defined.

Lemma update_idempotent_witness :
  ids_wf two_jobs /\
  update "job_1" (mk_patch Running (Some 3) None None None)
    (update "job_1" (mk_patch Running (Some 3) None None None) two_jobs).2 =
  update "job_1" (mk_patch Running (Some 3) None None None) two_jobs.
Proof. split; [decide_eval|]. apply update_idempotent. decide_eval. Defined.

(** Start the second job, create a third, read the clock, take the store
    down and bring it back. *)
Definition ordering_script : list store_op :=
  [OpUpdate "job_1" (mk_patch Running (Some 3) None None None);
   OpCreate JobApi (mk_params "sewing" None) None; OpNow; OpOnline false; OpOnline true].

Lemma store_created_order_witness :
  created_order two_jobs /\ rtc store_step two_jobs (run_ops ordering_script two_jobs) /\
  created_order (run_ops ordering_script two_jobs).
Proof.
  assert (H0 : created_order two_jobs) by (split; repeat constructor; cbn; lia).
  split; [exact H0|]. split; [apply run_ops_rtc|].
  exact (store_created_order _ _ H0 (run_ops_rtc ordering_script two_jobs)).
Defined.

End StoreOrdering.
