(* ===== verification/Collector.v ===== *)
(** * Strategy executors: [ApiCollector] and [ScrapeCollector]

    The route picks [dataService.collectBooksViaApi] or
    [dataService.collectBooksViaScraping] by the [method] field
    ([route.ts] lines 48-51).  The data service ([@/libs/amazon/service]) is
    not under [src/]; its two strategies are modelled from the spec
    (section 4.1) behind one capability, the class [Collector]: a query
    (keywords, optional category) gives a list of book records or a typed
    failure.  The marketplace is what each strategy observes: the answer of
    its data API, or the result page it fetches. *)
From S2P Require Import Prelude.

Module Collector.

(** A catalog entry as a strategy hands it to the orchestrator. *)
Record book := mk_book {
  title : string;
  book_category : option string;
  asin : string;
  price_cents : option nat
}.

(** The strategy-level failures of spec section 7. *)
Inductive collect_error :=
  | UpstreamError (http_status : Z)
  | RateLimitError
  | InvalidQueryError (reason : string)
  | ParseError (reason : string).

(** [String(cause)]: the text the orchestrator records as [errorMessage]. *)
Definition error_text (e : collect_error) : string :=
  match e with
  | UpstreamError st => "UpstreamError: marketplace answered HTTP " +:+ pretty (Z.to_nat st)
  | RateLimitError => "RateLimitError: marketplace throttled the request"
  | InvalidQueryError r => "InvalidQueryError: " +:+ r
  | ParseError r => "ParseError: " +:+ r
  end.

(** The one capability both strategies share. *)
Class Collector (C : Type) := collect : C -> string -> option string -> collect_error + list book.

(** ** The structured API strategy *)

(** What the marketplace data API answers to a query: an HTTP status and,
    on success, the items. *)
Record api_answer := mk_api_answer { api_status : Z; api_items : list book; api_reason : string }.

Record ApiCollector := mk_api { api_endpoint : string -> option string -> api_answer }.

(** 2xx is success, 429 is throttling, 400 and 422 are a query the
    marketplace rejects, anything else is an upstream failure. *)
Definition api_collect (c : ApiCollector) (kw : string) (cat : option string)
  : collect_error + list book :=
  let a := api_endpoint c kw cat in
  if bool_decide (200 <= api_status a < 300)%Z then inr (api_items a)
  else if bool_decide (api_status a = 429)%Z then inl RateLimitError
  else if bool_decide (api_status a = 400 \/ api_status a = 422)%Z then
    inl (InvalidQueryError (api_reason a))
  else inl (UpstreamError (api_status a)).

#[export] Instance api_collector : Collector ApiCollector := api_collect.

(** ** The page-scraping strategy *)

(** A fetched result page: the network failed, or an HTTP status and the
    parsed items ([None] when the page structure is not recognized). *)
Inductive page :=
  | NetworkFailure
  | Page (http_status : Z) (items : option (list book)).

Record ScrapeCollector := mk_scraper { fetch_page : string -> option string -> page }.

(** A 503 or 429 page is the anti-automation answer. *)
Definition scrape_collect (c : ScrapeCollector) (kw : string) (cat : option string)
  : collect_error + list book :=
  match fetch_page c kw cat with
  | NetworkFailure => inl (UpstreamError 0)
  | Page st items =>
      if bool_decide (st = 429 \/ st = 503)%Z then inl RateLimitError
      else if bool_decide (200 <= st < 300)%Z then
        match items with
        | Some bs => inr bs
        | None => inl (ParseError "unrecognized result page")
        end
      else inl (UpstreamError st)
  end.

#[export] Instance scrape_collector : Collector ScrapeCollector := scrape_collect.

(** ** The error taxonomy of each strategy (spec sections 4.1 and 7) *)

(** The kind of a failure, without its payload. *)
Inductive error_kind := KUpstream | KRateLimit | KInvalidQuery | KParse.

#[export] Instance error_kind_eq_dec : EqDecision error_kind.
Proof. solve_decision. Defined.

Definition kind_of (e : collect_error) : error_kind :=
  match e with
  | UpstreamError _ => KUpstream
  | RateLimitError => KRateLimit
  | InvalidQueryError _ => KInvalidQuery
  | ParseError _ => KParse
  end.

(** The failures spec section 4.1 lists for each strategy. *)
Definition api_kinds : list error_kind := [KUpstream; KRateLimit; KInvalidQuery].
Definition scrape_kinds : list error_kind := [KUpstream; KRateLimit; KParse].

(** What a strategy promises the orchestrator: it fails only with the
    errors of its list. *)
Class CollectorLaws (C : Type) `{Collector C} (kinds : list error_kind) :=
  collect_error_listed : forall c kw cat e, collect c kw cat = inl e -> kind_of e ∈ kinds.

(** A failure of kind [k] is one the strategy can raise. *)
Definition raisable (C : Type) `{Collector C} (k : error_kind) : Prop :=
  exists (c : C) kw cat e, collect c kw cat = inl e /\ kind_of e = k.

#[export] Instance api_collector_laws : CollectorLaws ApiCollector api_kinds.
Proof.
  intros c kw cat e. unfold collect, api_collector, api_collect.
  repeat case_bool_decide; intros [= <-]; cbn; set_solver.
Qed.

#[export] Instance scrape_collector_laws : CollectorLaws ScrapeCollector scrape_kinds.
Proof.
  intros c kw cat e. unfold collect, scrape_collector, scrape_collect.
  destruct (fetch_page c kw cat) as [|st [bs|]]; [intros [= <-]; cbn; set_solver|..];
    repeat case_bool_decide; intros [= <-]; cbn; set_solver.
Qed.

(** Marketplaces that make each strategy fail in each way. *)
Definition api_answering (st : Z) : ApiCollector := mk_api (fun _ _ => mk_api_answer st [] "rejected").
Definition scraper_seeing (p : page) : ScrapeCollector := mk_scraper (fun _ _ => p).

Lemma api_raisable k : k ∈ api_kinds -> raisable ApiCollector k.
Proof.
  intros Hk. repeat (apply elem_of_cons in Hk as [->|Hk]); [| | |by apply not_elem_of_nil in Hk].
  - exists (api_answering 500), "", None, (UpstreamError 500). done.
  - exists (api_answering 429), "", None, RateLimitError. done.
  - exists (api_answering 400), "", None, (InvalidQueryError "rejected"). done.
Qed.

Lemma scrape_raisable k : k ∈ scrape_kinds -> raisable ScrapeCollector k.
Proof.
  intros Hk. repeat (apply elem_of_cons in Hk as [->|Hk]); [| | |by apply not_elem_of_nil in Hk].
  - exists (scraper_seeing NetworkFailure), "", None, (UpstreamError 0). done.
  - exists (scraper_seeing (Page 503 None)), "", None, RateLimitError. done.
  - exists (scraper_seeing (Page 200 None)), "", None, (ParseError "unrecognized result page"). done.
Qed.

End Collector.
