(* ===== verification/Orchestrator.v ===== *)
(** * The job orchestrator: the collection service

    [dataService.collectBooksViaApi(keywords, category)] and
    [dataService.collectBooksViaScraping(keywords, category)], which the POST
    handler awaits ([route.ts] lines 45-51) and whose [{ job, books }] it
    answers with.  The service is not under [src/]; it is modelled from the
    spec (section 4.3): create a [pending] job (on failure, answer without a
    job and run no strategy), stamp it [running], run the strategy, then
    record [completed] with the number of books or [failed] with the error
    text.  The store operations are those of [JobStore]; the strategy is any
    [Collector]. *)
From S2P Require Import Prelude JobStore Collector.
#[local] Set Warnings "-clear-no-such-hyp".

Module Orchestrator.
Import JobStore Collector.

(** [{ job, books }] *)
Record collection_result := mk_result {
  result_job : option job_row;
  result_books : list book
}.

Definition running_patch (t : nat) : job_patch := mk_patch Running (Some t) None None None.
Definition completed_patch (t n : nat) : job_patch := mk_patch Completed None (Some t) (Some n) None.
Definition failed_patch (t : nat) (msg : string) : job_patch :=
  mk_patch Failed None (Some t) None (Some msg).

(** The patch that records the strategy's outcome, and the books returned. *)
Definition outcome_patch (t : nat) (o : collect_error + list book) : job_patch :=
  match o with
  | inr bs => completed_patch t (length bs)
  | inl e => failed_patch t (error_text e)
  end.

Definition outcome_books (o : collect_error + list book) : list book :=
  match o with inr bs => bs | inl _ => [] end.

Section Service.
Context `{Collector C}.

(** One collection request, with the strategy [c]. *)
Definition collect_books (c : C) (jt : job_kind) (kw : string) (cat : option string)
  : est db store_error collection_result :=
  created <- est_catch (j <- create jt (mk_params kw cat) None ;; est_ret (Some j))
                       (fun _ => est_ret None) ;;
  match created with
  | None => est_ret (mk_result None [])
  | Some j =>
      t1 <- now ;;
      _ <- update (id j) (running_patch t1) ;;
      let o := collect c kw cat in
      t2 <- now ;;
      j' <- update (id j) (outcome_patch t2 o) ;;
      est_ret (mk_result (Some j') (outcome_books o))
  end.
End Service.

Definition collectBooksViaApi (c : ApiCollector) := collect_books c JobApi.
Definition collectBooksViaScraping (c : ScrapeCollector) := collect_books c JobScraping.

(** ** The run of one request on an available store *)

(** The row a request leaves behind: created at [clock d], started one tick
    later, finished one tick after that. *)
Definition new_row (d : db) (jt : job_kind) (kw : string) (cat : option string) : job_row :=
  mk_row (fresh_id (next_seq d)) jt Pending None (mk_params kw cat) 0 None None None (clock d).

Definition final_row (d : db) (jt : job_kind) (kw : string) (cat : option string)
    (o : collect_error + list book) : job_row :=
  apply_patch (apply_patch (new_row d jt kw cat) (running_patch (S (clock d))))
              (outcome_patch (S (S (clock d))) o).

(** The well-formedness of a row (spec, section 3): created before the
    clock, [completed_at] and [error_message] unset until the job ends,
    [error_message] set exactly on [failed], and
    [created_at <= started_at <= completed_at]. *)
Definition row_wf (now : nat) (r : job_row) : bool :=
  (created_at r <? now) &&
  match status r, started_at r, completed_at r, error_message r with
  | Pending, None, None, None => true
  | Running, Some t, None, None => (created_at r <=? t) && (t <? now)
  | Completed, Some t1, Some t2, None => (created_at r <=? t1) && (t1 <=? t2) && (t2 <? now)
  | Failed, Some t1, Some t2, Some _ => (created_at r <=? t1) && (t1 <=? t2) && (t2 <? now)
  | _, _, _, _ => false
  end.

Definition rows_wf (d : db) : Prop := Forall (fun r => row_wf (clock d) r = true) (rows d).

Lemma row_wf_mono n m r : row_wf n r = true -> n <= m -> row_wf m r = true.
Proof.
  unfold row_wf. intros Hr Hnm.
  destruct (status r), (started_at r), (completed_at r), (error_message r);
    rewrite ?andb_true_iff, ?Nat.leb_le, ?Nat.ltb_lt in *; try done; lia.
Qed.

Lemma final_row_wf d jt kw cat o :
  row_wf (S (S (S (clock d)))) (final_row d jt kw cat o) = true.
Proof. destruct o; unfold row_wf; simpl; bool_lia. Qed.

Lemma outcome_patch_ok t o : patch_ok Running (outcome_patch t o) = true.
Proof. by destruct o. Qed.

Lemma outcome_patch_status t o : Running <> set_status (outcome_patch t o).
Proof. by destruct o. Qed.

Section Run.
Context `{Collector C} (c : C) (jt : job_kind) (kw : string) (cat : option string).

(** On a well-formed available store, a request appends one row -- the
    [final_row] -- allocates one id and advances the clock by three. *)
Lemma collect_books_run d :
  ids_wf d -> online d = true ->
  collect_books c jt kw cat d =
  (inr (mk_result (Some (final_row d jt kw cat (collect c kw cat)))
                  (outcome_books (collect c kw cat))),
   mk_db (rows d ++ [final_row d jt kw cat (collect c kw cat)])
         (S (next_seq d)) (S (S (S (clock d)))) true).
Proof.
  intros Hwf Hon. pose proof (fresh_not_issued d Hwf) as Hfresh.
  unfold collect_books, est_bind, est_catch, est_ret. unfold create at 1.
  rewrite Hon. cbn -[update].
  rewrite (update_last _ _ _ (new_row d jt kw cat)) by done. cbn -[update].
  rewrite (update_last _ _ _ (apply_patch (new_row d jt kw cat) (running_patch (S (clock d)))))
    by first [done | apply outcome_patch_status | apply outcome_patch_ok].
  reflexivity.
Qed.

(** With the store down, [create] fails and the request answers without a
    job, touching nothing. *)
Lemma collect_books_down d :
  online d = false -> collect_books c jt kw cat d = (inr (mk_result None []), d).
Proof. intros Hoff. unfold collect_books, est_bind, est_catch, create. by rewrite Hoff. Qed.

(** C16: when the strategy returns a list of books -- possibly empty --
    the request answers with a [completed] job, [books_collected] its
    length, no error text, the query kept verbatim, stamped
    [created_at < started_at < completed_at], appended to the table. *)
Theorem collect_books_completed d books :
  ids_wf d -> online d = true -> collect c kw cat = inr books ->
  exists j d', collect_books c jt kw cat d = (inr (mk_result (Some j) books), d') /\
    status j = Completed /\ books_collected j = length books /\ error_message j = None /\
    job_type j = jt /\ parameters j = mk_params kw cat /\ created_at j = clock d /\
    started_at j = Some (S (clock d)) /\ completed_at j = Some (S (S (clock d))) /\
    rows d' = rows d ++ [j].
Proof.
  intros Hwf Hon Hc. rewrite collect_books_run by done. rewrite Hc.
  eexists _, _. split; [reflexivity|]. repeat split.
Qed.

(** C17: when the strategy fails, the request still answers with the job,
    now [failed], its [error_message] the text of the cause, [completed_at]
    set after [started_at], no books and [books_collected = 0]; the
    failure is recorded in the row, not thrown. *)
Theorem collect_books_failed d e :
  ids_wf d -> online d = true -> collect c kw cat = inl e ->
  exists j d', collect_books c jt kw cat d = (inr (mk_result (Some j) []), d') /\
    status j = Failed /\ error_message j = Some (error_text e) /\
    started_at j = Some (S (clock d)) /\ completed_at j = Some (S (S (clock d))) /\
    books_collected j = 0 /\ rows d' = rows d ++ [j].
Proof.
  intros Hwf Hon Hc. rewrite collect_books_run by done. rewrite Hc.
  eexists _, _. split; [reflexivity|]. repeat split.
Qed.

(** C18: a request leaves the store well-formed: ids unique and issued,
    and every row satisfying [row_wf] -- on every path, store up or
    down, strategy succeeding or failing. *)
Theorem collect_books_preserves_wf d :
  ids_wf d -> rows_wf d ->
  ids_wf (collect_books c jt kw cat d).2 /\ rows_wf (collect_books c jt kw cat d).2.
Proof.
  intros Hwf Hrows. destruct (online d) eqn:Hon;
    [|by rewrite collect_books_down].
  rewrite collect_books_run by done. cbn [snd]. split.
  - by apply ids_wf_append_fresh.
  - unfold rows_wf; cbn [rows clock]. apply Forall_app. split.
    + eapply Forall_impl; [exact Hrows|]. intros r Hr. eapply row_wf_mono; [exact Hr|lia].
    + apply Forall_singleton. apply final_row_wf.
Qed.

End Run.

(** C20: with the store down, [create] fails: a request answers without a
    job and leaves the store as it was, and its answer is the same whatever
    the strategy -- the strategy is never run. *)
Theorem collect_books_offline `{Collector C1} `{Collector C2} (c1 : C1) (c2 : C2)
    jt kw cat d :
  online d = false ->
  collect_books c1 jt kw cat d = collect_books c2 jt kw cat d /\
  collect_books c1 jt kw cat d = (inr (mk_result None []), d).
Proof. intros Hoff. by rewrite !collect_books_down. Qed.

(** ** Witnesses on concrete strategies *)

(** An API that answers 200 with no items, one that throttles, a scraper
    whose page cannot be parsed. *)
Definition api_empty : ApiCollector := mk_api (fun _ _ => mk_api_answer 200 [] "").
Definition api_throttled : ApiCollector := mk_api (fun _ _ => mk_api_answer 429 [] "").
Definition empty_db : db := mk_db [] 0 0 true.

Lemma collect_books_completed_witness :
  ids_wf empty_db /\ online empty_db = true /\ collect api_empty "gardening" None = inr [] /\
  exists j d', collect_books api_empty JobApi "gardening" None empty_db =
                 (inr (mk_result (Some j) []), d') /\
    status j = Completed /\ books_collected j = length (@nil book) /\ error_message j = None /\
    job_type j = JobApi /\ parameters j = mk_params "gardening" None /\ created_at j = 0 /\
    started_at j = Some 1 /\ completed_at j = Some 2 /\ rows d' = rows empty_db ++ [j].
Proof.
  split; [decide_eval|]. split; [reflexivity|]. split; [reflexivity|].
  apply collect_books_completed; [decide_eval | reflexivity | reflexivity].
Defined.

Lemma collect_books_failed_witness :
  ids_wf empty_db /\ online empty_db = true /\
  collect api_throttled "gardening" None = inl RateLimitError /\
  exists j d', collect_books api_throttled JobApi "gardening" None empty_db =
                 (inr (mk_result (Some j) []), d') /\
    status j = Failed /\ error_message j = Some (error_text RateLimitError) /\
    started_at j = Some 1 /\ completed_at j = Some 2 /\
    books_collected j = 0 /\ rows d' = rows empty_db ++ [j].
Proof.
  split; [decide_eval|]. split; [reflexivity|]. split; [reflexivity|].
  apply collect_books_failed; [decide_eval | reflexivity | reflexivity].
Defined.

Lemma collect_books_offline_witness :
  online (mk_db [] 0 0 false) = false /\
  collect_books api_throttled JobScraping "gardening" (Some "garden") (mk_db [] 0 0 false) =
    collect_books api_empty JobScraping "gardening" (Some "garden") (mk_db [] 0 0 false) /\
  collect_books api_throttled JobScraping "gardening" (Some "garden") (mk_db [] 0 0 false) =
    (inr (mk_result None []), mk_db [] 0 0 false).
Proof. split; [reflexivity|]. apply collect_books_offline. reflexivity. Defined.

Lemma collect_books_preserves_wf_witness :
  ids_wf empty_db /\ rows_wf empty_db /\
  ids_wf (collect_books api_throttled JobApi "gardening" None empty_db).2 /\
  rows_wf (collect_books api_throttled JobApi "gardening" None empty_db).2.
Proof.
  split; [decide_eval|]. split; [decide_eval|].
  apply collect_books_preserves_wf; decide_eval.
Defined.

End Orchestrator.
