(* ===== verification/Route.v ===== *)
(** * The route handlers: [src/app/api/amazon/collect/route.ts]

    [POST] checks the caller, parses and validates the body, runs the
    collection service with the strategy [method] selects, and answers with
    the job and the number of books; [GET] checks the caller, reads
    [jobId] from the query string, reads that row of
    [data_collection_jobs] and answers with its public view.  Each handler
    is one computation of the error-state monad over the database; its
    [try]/[catch] is [est_catch], and a thrown error becomes the 500
    answer.  The authentication provider is an input of the handler (the
    user [supabase.auth.getUser()] yields, or none). *)
From S2P Require Import Prelude Json Validation JobStore Collector Orchestrator.
#[local] Set Warnings "-clear-no-such-hyp".

Module Route.
Import Json Validation JobStore Collector Orchestrator.

(** What a handler can catch: an [Error] and its [message], or a thrown
    value that [String(error)] prints. *)
Inductive js_error := JsError (message : string) | JsThrown (value : string).

(** [error instanceof Error ? error.message : String(error)] *)
Definition error_message_of (e : js_error) : string :=
  match e with JsError m => m | JsThrown v => v end.

(** The errors of the store surface in the handler as [Error]s. *)
Definition store_exn (e : store_error) : js_error :=
  match e with
  | NotFound => JsError "Collection job not found"
  | InvalidTransition => JsError "Invalid job status transition"
  | StoreUnavailable => JsError "Job store unavailable"
  end.

(** The request: its body as [JSON.parse] reads the text ([None] when the
    text is not JSON, so that [req.json()] throws), the message of the
    [SyntaxError] [JSON.parse] raises for that text (it depends on the
    text and on the engine: ["Unexpected end of JSON input"] for an empty
    body, ["Unexpected token ..."] for others; it is an input here, as the
    text is), and the query string of its URL. *)
Record request := mk_req {
  req_body : option json;
  req_syntax_error : string;
  req_search : list (string * string)
}.

(** What the handler meets outside the store: the authenticated user, and
    the two strategies [createAmazonDataService()] is configured with. *)
Record env := mk_env { auth_user : option string; api : ApiCollector; scraper : ScrapeCollector }.

(** [await req.json()] *)
Definition req_json (req : request) : est db js_error json :=
  match req_body req with
  | Some b => est_ret b
  | None => est_throw (JsError (req_syntax_error req))
  end.

(** [searchParams.get(k)]: the first value of [k], or [null]. *)
Fixpoint search_get (k : string) (ps : list (string * string)) : option string :=
  match ps with
  | [] => None
  | (k', v) :: ps => if bool_decide (k' = k) then Some v else search_get k ps
  end.

Definition params_json (p : job_params) : json :=
  JObject ([("keywords", JString (prm_keywords p))] ++
           match prm_category p with Some c => [("category", JString c)] | None => [] end).

(** A row as the service returns it ([result.job]), with its column names. *)
Definition row_json (r : job_row) : json :=
  JObject [("id", JString (id r)); ("job_type", JString (job_type_name (job_type r)));
           ("status", JString (status_name (status r))); ("category_id", jstr_opt (category_id r));
           ("parameters", params_json (parameters r));
           ("books_collected", JNumber (Z.of_nat (books_collected r)));
           ("error_message", jstr_opt (error_message r));
           ("started_at", jnat_opt (started_at r)); ("completed_at", jnat_opt (completed_at r));
           ("created_at", JNumber (Z.of_nat (created_at r)))].

(** The public view of a row that GET answers with ([route.ts] 115-126). *)
Definition job_view (data : job_row) : json :=
  JObject [("id", JString (id data)); ("jobType", JString (job_type_name (job_type data)));
           ("status", JString (status_name (status data)));
           ("categoryId", jstr_opt (category_id data));
           ("parameters", params_json (parameters data));
           ("booksCollected", JNumber (Z.of_nat (books_collected data)));
           ("errorMessage", jstr_opt (error_message data));
           ("startedAt", jnat_opt (started_at data));
           ("completedAt", jnat_opt (completed_at data));
           ("createdAt", JNumber (Z.of_nat (created_at data)))].

Definition internal_error (err : js_error) : est db js_error response :=
  est_ret (next_json_status (JObject [("error", JString "Internal server error");
                                      ("message", JString (error_message_of err))]) 500).

Definition unauthorized : response := next_json_status (error_body "Unauthorized") 401.

(** The body of a successful POST. *)
Definition success_body (j : job_row) (books : list book) : json :=
  JObject [("success", JBool true); ("job", row_json j);
           ("booksCollected", JNumber (Z.of_nat (length books)));
           ("message", JString ("Successfully collected " +:+ pretty (length books) +:+ " books"))].

Definition invalid_request (issues : list issue) : response :=
  next_json_status (JObject [("error", JString "Invalid request");
                             ("details", JArray (issue_json <$> issues))]) 400.

(** [POST /api/amazon/collect] *)
Definition POST (e : env) (req : request) : est db js_error response :=
  est_catch
    (match auth_user e with
     | None => est_ret unauthorized
     | Some _ =>
         body <- req_json req ;;
         match safeParse body with
         | inl issues => est_ret (invalid_request issues)
         | inr v =>
             result <- est_map_err store_exn
                         (match method v with
                          | Api => collectBooksViaApi (api e) (keywords v) (category v)
                          | Scraping => collectBooksViaScraping (scraper e) (keywords v) (category v)
                          end) ;;
             match result_job result with
             | None => est_ret (next_json_status (error_body "Failed to create collection job") 500)
             | Some j => est_ret (next_json (success_body j (result_books result)))
             end
         end
     end)
    internal_error.

(** [GET /api/amazon/collect?jobId=...]: [!jobId] holds for a missing and
    for an empty parameter; any error of the query, or no row, is 404. *)
Definition GET (e : env) (req : request) : est db js_error response :=
  est_catch
    (match auth_user e with
     | None => est_ret unauthorized
     | Some _ =>
         match search_get "jobId" (req_search req) with
         | None => est_ret (next_json_status (error_body "jobId parameter is required") 400)
         | Some jid =>
             if bool_decide (jid = "") then
               est_ret (next_json_status (error_body "jobId parameter is required") 400)
             else
               d <- est_get ;;
               match select_single d jid with
               | inl _ => est_ret (next_json_status (error_body "Job not found") 404)
               | inr data => est_ret (next_json (JObject [("job", job_view data)]))
               end
         end
     end)
    internal_error.

(** The job type and the strategy outcome the [method] of a request selects. *)
Definition method_kind (m : collect_method) : job_kind :=
  match m with Api => JobApi | Scraping => JobScraping end.

Definition strategy_outcome (e : env) (v : collect_request) : collect_error + list book :=
  match method v with
  | Api => collect (api e) (keywords v) (category v)
  | Scraping => collect (scraper e) (keywords v) (category v)
  end.

Definition job_not_found : response := next_json_status (error_body "Job not found") 404.
Definition job_id_required : response :=
  next_json_status (error_body "jobId parameter is required") 400.

(** ** Properties of the handlers *)

(** C1: without an authenticated user both handlers answer 401
    [{ error: "Unauthorized" }], whatever the request, and leave the store
    as it was. *)
Theorem handlers_unauthorized e req d :
  auth_user e = None ->
  POST e req d = (inr unauthorized, d) /\ GET e req d = (inr unauthorized, d).
Proof. intros Ha. unfold POST, GET, est_catch. by rewrite Ha. Qed.

(** C2: an authenticated request whose JSON body fails the schema is
    answered 400 with the issues, before any job is created: the store is
    unchanged. *)
Theorem POST_invalid_body e req d u body issues :
  auth_user e = Some u -> req_body req = Some body -> safeParse body = inl issues ->
  POST e req d = (inr (invalid_request issues), d).
Proof.
  intros Ha Hb Hv. unfold POST, est_catch, est_bind, req_json.
  rewrite Ha, Hb. cbn -[safeParse]. by rewrite Hv.
Qed.

(** The run of POST on an authenticated valid request: the service's run
    with the strategy [method] selects, answered 200. *)
Lemma POST_valid_run e req d u body v :
  auth_user e = Some u -> req_body req = Some body -> safeParse body = inr v ->
  ids_wf d -> online d = true ->
  POST e req d =
  (inr (next_json (success_body
          (final_row d (method_kind (method v)) (keywords v) (category v) (strategy_outcome e v))
          (outcome_books (strategy_outcome e v)))),
   mk_db (rows d ++ [final_row d (method_kind (method v)) (keywords v) (category v)
                                (strategy_outcome e v)])
         (S (next_seq d)) (S (S (S (clock d)))) true).
Proof.
  intros Ha Hb Hv Hwf Hon. unfold POST, est_catch, est_bind, req_json.
  rewrite Ha, Hb. cbn -[safeParse collect_books]. rewrite Hv.
  unfold strategy_outcome, est_map_err, collectBooksViaApi, collectBooksViaScraping.
  destruct (method v); cbn -[collect_books]; by rewrite collect_books_run.
Qed.

(** GET of an id whose row the query finds answers 200 with its view. *)
Lemma GET_select e req d u r :
  auth_user e = Some u -> search_get "jobId" (req_search req) = Some (id r) ->
  id r <> "" -> select_single d (id r) = inr r ->
  GET e req d = (inr (next_json (JObject [("job", job_view r)])), d).
Proof.
  intros Ha Hs Hne Hsel. unfold GET, est_catch, est_bind, est_get. rewrite Ha, Hs.
  rewrite bool_decide_false by done. cbn -[select_single]. by rewrite Hsel.
Qed.

(** C3: on a well-formed available store, an authenticated valid request
    appends exactly one row -- the query kept verbatim, of the job type
    [method] selects, run by that strategy to a terminal status with
    [books_collected] the number of books it returned -- and answers 200
    with that row, those books and their number. *)
Theorem POST_collects e req d u body v :
  auth_user e = Some u -> req_body req = Some body -> safeParse body = inr v ->
  ids_wf d -> online d = true ->
  exists j, POST e req d =
    (inr (next_json (success_body j (outcome_books (strategy_outcome e v)))),
     mk_db (rows d ++ [j]) (S (next_seq d)) (S (S (S (clock d)))) true) /\
    job_type j = method_kind (method v) /\ parameters j = mk_params (keywords v) (category v) /\
    terminal (status j) = true /\
    books_collected j = length (outcome_books (strategy_outcome e v)).
Proof.
  intros Ha Hb Hv Hwf Hon. rewrite (POST_valid_run e req d u body v) by done.
  eexists. split; [reflexivity|]. unfold final_row.
  by destruct (strategy_outcome e v).
Qed.

(** C5: when the selected strategy fails, POST still answers 200 with
    [success: true] and the message "Successfully collected 0 books"; only
    the job it returns says [failed], with the error text.  (The spec,
    section 7, keeps the failure in the job; the answer's wording does not
    reflect it.) *)
Theorem POST_strategy_failure e req d u body v err :
  auth_user e = Some u -> req_body req = Some body -> safeParse body = inr v ->
  ids_wf d -> online d = true -> strategy_outcome e v = inl err ->
  exists j d', POST e req d = (inr (next_json (success_body j [])), d') /\
    res_status (next_json (success_body j [])) = 200%Z /\
    jget "success" (success_body j []) = Some (JBool true) /\
    jget "message" (success_body j []) = Some (JString "Successfully collected 0 books") /\
    status j = Failed /\ error_message j = Some (error_text err).
Proof.
  intros Ha Hb Hv Hwf Hon Herr. rewrite (POST_valid_run e req d u body v) by done.
  rewrite Herr. eexists _, _. split; [reflexivity|]. repeat split.
Qed.

(** C6: when the store cannot create the job, POST answers 500
    [{ error: "Failed to create collection job" }], no strategy runs (the
    answer is the same for every strategy) and the store is unchanged. *)
Theorem POST_store_unavailable e req d u body v :
  auth_user e = Some u -> req_body req = Some body -> safeParse body = inr v ->
  online d = false ->
  POST e req d = (inr (next_json_status (error_body "Failed to create collection job") 500), d).
Proof.
  intros Ha Hb Hv Hoff. unfold POST, est_catch, est_bind, req_json.
  rewrite Ha, Hb. cbn -[safeParse collect_books]. rewrite Hv.
  unfold est_map_err, collectBooksViaApi, collectBooksViaScraping.
  destruct (method v); by rewrite collect_books_down.
Qed.

(** C11: a body that is not JSON makes [req.json()] throw its
    [SyntaxError]; the handler's [catch] answers 500
    [{ error: "Internal server error", message }] with that error's
    message, runs no validation and no collection, and leaves the store
    unchanged. *)
Theorem POST_malformed_json e req d u :
  auth_user e = Some u -> req_body req = None ->
  POST e req d =
  (inr (next_json_status (JObject [("error", JString "Internal server error");
                                   ("message", JString (req_syntax_error req))]) 500), d).
Proof. intros Ha Hb. unfold POST, est_catch, est_bind, req_json. by rewrite Ha, Hb. Qed.

(** C9: GET with a missing or empty [jobId] answers 400
    [{ error: "jobId parameter is required" }]. *)
Theorem GET_missing_job_id e req d u :
  auth_user e = Some u ->
  search_get "jobId" (req_search req) = None \/ search_get "jobId" (req_search req) = Some "" ->
  GET e req d = (inr job_id_required, d).
Proof.
  intros Ha Hs. unfold GET, est_catch. rewrite Ha.
  by destruct Hs as [-> | ->].
Qed.

(** C7: GET of a job in the store answers 200 with the public view of its
    row (every column, renamed to camelCase). *)
Theorem GET_found e req d u r :
  auth_user e = Some u -> search_get "jobId" (req_search req) = Some (id r) ->
  ids_wf d -> online d = true -> r ∈ rows d ->
  GET e req d = (inr (next_json (JObject [("job", job_view r)])), d).
Proof.
  intros Ha Hs Hwf Hon Hr. apply (GET_select e req d u r Ha Hs).
  - by eapply ids_wf_nonempty.
  - apply select_single_elem; [apply Hwf | done | done].
Qed.

(** C8: GET of an id no row has -- never issued, or not of the shape of an
    id at all -- answers 404 [{ error: "Job not found" }], and so does a
    GET while the store is unavailable: the handler has no [InvalidId]
    answer and no 500 answer for a failed read. *)
Theorem GET_not_found e req d u jid :
  auth_user e = Some u -> search_get "jobId" (req_search req) = Some jid -> jid <> "" ->
  jid ∉ id <$> rows d \/ online d = false ->
  GET e req d = (inr job_not_found, d).
Proof.
  intros Ha Hs Hne Habs. destruct (select_single_absent d jid Habs) as [err Herr].
  unfold GET, est_catch, est_bind, est_get. rewrite Ha, Hs, bool_decide_false by done.
  cbn -[select_single]. by rewrite Herr.
Qed.

(** C10: GET only reads: it leaves the store as it was, so repeating it
    gives the same answer. *)
Theorem GET_read_only e req d :
  (GET e req d).2 = d /\ GET e req (GET e req d).2 = GET e req d.
Proof.
  assert (H : (GET e req d).2 = d).
  { unfold GET, est_catch, est_bind, est_get, est_ret.
    destruct (auth_user e); [|done]. destruct (search_get _ _); [|done].
    case_bool_decide; [done|]. by destruct (select_single d _). }
  split; [done|]. by rewrite H.
Qed.

(** C4: end to end -- after an authenticated valid POST on a well-formed
    available store, a GET for the id of the job it created answers 200
    with the view of that same row, whose status is terminal. *)
Theorem POST_then_GET e req req' d u body v :
  auth_user e = Some u -> req_body req = Some body -> safeParse body = inr v ->
  ids_wf d -> online d = true ->
  search_get "jobId" (req_search req') = Some (fresh_id (next_seq d)) ->
  GET e req' (POST e req d).2 =
    (inr (next_json (JObject [("job", job_view (final_row d (method_kind (method v))
                                  (keywords v) (category v) (strategy_outcome e v)))])),
     (POST e req d).2) /\
  terminal (status (final_row d (method_kind (method v)) (keywords v) (category v)
                      (strategy_outcome e v))) = true.
Proof.
  intros Ha Hb Hv Hwf Hon Hs. rewrite (POST_valid_run e req d u body v) by done. cbn [snd].
  pose proof (fresh_not_issued d Hwf) as Hfresh.
  split.
  - apply (GET_select e req' _ u (final_row d (method_kind (method v)) (keywords v)
                                   (category v) (strategy_outcome e v)) Ha Hs);
      [apply fresh_id_nonempty|].
    by apply select_single_last.
  - unfold final_row. by destruct (strategy_outcome e v).
Qed.

(** ** Witnesses: the scenarios of the spec, section 8 *)

Definition scraper_unparsable : ScrapeCollector := mk_scraper (fun _ _ => Page 200 None).
Definition signed_in : env := mk_env (Some "user-1") api_empty scraper_unparsable.
Definition anonymous : env := mk_env None api_empty scraper_unparsable.
Definition gardening_body : json :=
  JObject [("keywords", JString "gardening"); ("method", JString "api")].
Definition scraping_body : json :=
  JObject [("keywords", JString "gardening"); ("method", JString "scraping")].
Definition empty_keywords_body : json :=
  JObject [("keywords", JString ""); ("method", JString "scraping")].
Definition gardening : collect_request := mk_request "gardening" None Api.
Definition gardening_scraped : collect_request := mk_request "gardening" None Scraping.
Definition post (b : option json) : request := mk_req b "Unexpected end of JSON input" [].
Definition get_job (jid : string) : request := mk_req None "Unexpected end of JSON input" [("jobId", jid)].
(** A body whose text is [abc]. *)
Definition post_abc : request := mk_req None "Unexpected token a in JSON at position 0" [].

Lemma handlers_unauthorized_witness :
  auth_user anonymous = None /\
  POST anonymous (post (Some gardening_body)) empty_db = (inr unauthorized, empty_db) /\
  GET anonymous (post (Some gardening_body)) empty_db = (inr unauthorized, empty_db).
Proof. split; [reflexivity|]. apply handlers_unauthorized. reflexivity. Defined.

Lemma POST_invalid_body_witness :
  auth_user signed_in = Some "user-1" /\
  req_body (post (Some empty_keywords_body)) = Some empty_keywords_body /\
  safeParse empty_keywords_body = inl [mk_issue ["keywords"] (too_small 1)] /\
  POST signed_in (post (Some empty_keywords_body)) empty_db =
    (inr (invalid_request [mk_issue ["keywords"] (too_small 1)]), empty_db).
Proof.
  do 3 (split; [reflexivity|]).
  apply (POST_invalid_body _ _ _ "user-1" empty_keywords_body); reflexivity.
Defined.

Lemma POST_collects_witness :
  auth_user signed_in = Some "user-1" /\
  req_body (post (Some gardening_body)) = Some gardening_body /\
  safeParse gardening_body = inr gardening /\ ids_wf empty_db /\ online empty_db = true /\
  exists j, POST signed_in (post (Some gardening_body)) empty_db =
    (inr (next_json (success_body j (outcome_books (strategy_outcome signed_in gardening)))),
     mk_db (rows empty_db ++ [j]) 1 3 true) /\
    job_type j = JobApi /\ parameters j = mk_params "gardening" None /\
    terminal (status j) = true /\
    books_collected j = length (outcome_books (strategy_outcome signed_in gardening)).
Proof.
  do 3 (split; [reflexivity|]). split; [decide_eval|]. split; [reflexivity|].
  apply (POST_collects signed_in (post (Some gardening_body)) empty_db "user-1" gardening_body gardening);
    [reflexivity | reflexivity | reflexivity | decide_eval | reflexivity].
Defined.

Lemma POST_strategy_failure_witness :
  auth_user signed_in = Some "user-1" /\
  req_body (post (Some scraping_body)) = Some scraping_body /\
  safeParse scraping_body = inr gardening_scraped /\ ids_wf empty_db /\ online empty_db = true /\
  strategy_outcome signed_in gardening_scraped = inl (ParseError "unrecognized result page") /\
  exists j d', POST signed_in (post (Some scraping_body)) empty_db =
                 (inr (next_json (success_body j [])), d') /\
    res_status (next_json (success_body j [])) = 200%Z /\
    jget "success" (success_body j []) = Some (JBool true) /\
    jget "message" (success_body j []) = Some (JString "Successfully collected 0 books") /\
    status j = Failed /\
    error_message j = Some (error_text (ParseError "unrecognized result page")).
Proof.
  do 3 (split; [reflexivity|]). split; [decide_eval|]. do 2 (split; [reflexivity|]).
  apply (POST_strategy_failure _ _ _ "user-1" scraping_body gardening_scraped);
    [reflexivity | reflexivity | reflexivity | decide_eval | reflexivity | reflexivity].
Defined.

Lemma POST_store_unavailable_witness :
  auth_user signed_in = Some "user-1" /\
  req_body (post (Some gardening_body)) = Some gardening_body /\
  safeParse gardening_body = inr gardening /\ online (mk_db [] 0 0 false) = false /\
  POST signed_in (post (Some gardening_body)) (mk_db [] 0 0 false) =
    (inr (next_json_status (error_body "Failed to create collection job") 500), mk_db [] 0 0 false).
Proof.
  do 4 (split; [reflexivity|]).
  apply (POST_store_unavailable _ _ _ "user-1" gardening_body gardening); reflexivity.
Defined.

Lemma POST_malformed_json_witness :
  auth_user signed_in = Some "user-1" /\ req_body post_abc = None /\
  POST signed_in post_abc empty_db =
  (inr (next_json_status (JObject [("error", JString "Internal server error");
                                   ("message", JString (req_syntax_error post_abc))]) 500),
   empty_db).
Proof. do 2 (split; [reflexivity|]). apply (POST_malformed_json _ _ _ "user-1"); reflexivity. Defined.

Lemma GET_missing_job_id_witness :
  auth_user signed_in = Some "user-1" /\
  (search_get "jobId" (req_search (get_job "")) = None \/
   search_get "jobId" (req_search (get_job "")) = Some "") /\
  GET signed_in (get_job "") empty_db = (inr job_id_required, empty_db).
Proof.
  split; [reflexivity|]. split; [right; reflexivity|].
  apply (GET_missing_job_id _ _ _ "user-1"); [reflexivity | right; reflexivity].
Defined.

Definition one_job_db : db :=
  (collect_books api_empty JobApi "gardening" None empty_db).2.

Lemma GET_found_witness :
  let r := final_row empty_db JobApi "gardening" None (collect api_empty "gardening" None) in
  auth_user signed_in = Some "user-1" /\
  search_get "jobId" (req_search (get_job "job_0")) = Some (id r) /\
  ids_wf one_job_db /\ online one_job_db = true /\ r ∈ rows one_job_db /\
  GET signed_in (get_job "job_0") one_job_db =
    (inr (next_json (JObject [("job", job_view r)])), one_job_db).
Proof.
  cbv zeta. do 2 (split; [reflexivity|]). split; [decide_eval|]. split; [reflexivity|].
  split; [decide_eval|].
  apply (GET_found _ _ _ "user-1"); [reflexivity | reflexivity | decide_eval | reflexivity | decide_eval].
Defined.

Lemma GET_not_found_witness :
  auth_user signed_in = Some "user-1" /\
  search_get "jobId" (req_search (get_job "not-a-uuid")) = Some "not-a-uuid" /\
  "not-a-uuid" <> "" /\
  ("not-a-uuid" ∉ id <$> rows one_job_db \/ online one_job_db = false) /\
  GET signed_in (get_job "not-a-uuid") one_job_db = (inr job_not_found, one_job_db).
Proof.
  do 2 (split; [reflexivity|]). split; [discriminate|]. split; [left; decide_eval|].
  apply (GET_not_found signed_in (get_job "not-a-uuid") one_job_db "user-1" "not-a-uuid"); [reflexivity | reflexivity | discriminate | left; decide_eval].
Defined.

Lemma POST_then_GET_witness :
  auth_user signed_in = Some "user-1" /\
  req_body (post (Some gardening_body)) = Some gardening_body /\
  safeParse gardening_body = inr gardening /\ ids_wf empty_db /\ online empty_db = true /\
  search_get "jobId" (req_search (get_job "job_0")) = Some (fresh_id (next_seq empty_db)) /\
  GET signed_in (get_job "job_0") (POST signed_in (post (Some gardening_body)) empty_db).2 =
    (inr (next_json (JObject [("job", job_view (final_row empty_db JobApi "gardening" None
                                                 (strategy_outcome signed_in gardening)))])),
     (POST signed_in (post (Some gardening_body)) empty_db).2) /\
  terminal (status (final_row empty_db JobApi "gardening" None
                      (strategy_outcome signed_in gardening))) = true.
Proof.
  do 3 (split; [reflexivity|]). split; [decide_eval|]. do 2 (split; [reflexivity|]).
  apply (POST_then_GET _ _ _ _ "user-1" gardening_body gardening);
    [reflexivity | reflexivity | reflexivity | decide_eval | reflexivity | reflexivity].
Defined.

End Route.
