(* ===== verification/Contract.v ===== *)
(** * The interface contract of the two endpoints (spec section 6)

    For each status an endpoint may answer, the shape of the body the
    contract gives it, as a [jtype] of [Json]: the status endpoint answers
    200 [{job: {id, jobType, status, categoryId, parameters, booksCollected,
    errorMessage, startedAt, completedAt, createdAt}}], 400, 401 or 404
    [{error}], and 500; the trigger endpoint answers 200 [{success: true,
    job, booksCollected, message}], 400 with zod's issues, 401 and 500.
    The theorems show that [Route.POST] and [Route.GET] answer, on every
    path, a status of their contract with a body of its shape, and never
    let an error escape. *)
From S2P Require Import Prelude Json Validation JobStore Collector Orchestrator Route.

Module Contract.
Import Json Validation JobStore Collector Orchestrator Route.

(** ** Shapes *)

Definition job_type_shape : jtype := TUnion (TLit "api") (TLit "scraping").

Definition status_shape : jtype :=
  TUnion (TLit "pending") (TUnion (TLit "running") (TUnion (TLit "completed") (TLit "failed"))).

(** [parameters]: the query, with [category] absent when none was given. *)
Definition params_shape : jtype :=
  TObject [(true, "keywords", TString); (false, "category", TString)].

(** The public job view of the status endpoint. *)
Definition view_shape : jtype :=
  TObject [(true, "id", TString); (true, "jobType", job_type_shape); (true, "status", status_shape);
           (true, "categoryId", TNullable TString); (true, "parameters", params_shape);
           (true, "booksCollected", TNat); (true, "errorMessage", TNullable TString);
           (true, "startedAt", TNullable TNat); (true, "completedAt", TNullable TNat);
           (true, "createdAt", TNat)].

(** The stored row, with the table's column names. *)
Definition row_shape : jtype :=
  TObject [(true, "id", TString); (true, "job_type", job_type_shape); (true, "status", status_shape);
           (true, "category_id", TNullable TString); (true, "parameters", params_shape);
           (true, "books_collected", TNat); (true, "error_message", TNullable TString);
           (true, "started_at", TNullable TNat); (true, "completed_at", TNullable TNat);
           (true, "created_at", TNat)].

(** zod's issues, as the 400 answer lists them. *)
Definition issue_shape : jtype :=
  let path := (true, "path", TArray TString) in
  TUnion
    (TObject [(true, "code", TLit "invalid_type"); (true, "expected", TString);
              (true, "received", TString); path; (true, "message", TString)])
    (TUnion
    (TObject [(true, "expected", TString); (true, "received", TString);
              (true, "code", TLit "invalid_type"); path; (true, "message", TString)])
    (TUnion
       (TObject [(true, "code", TLit "too_small"); (true, "minimum", TNat);
                 (true, "type", TLit "string"); (true, "inclusive", TBool); (true, "exact", TBool);
                 (true, "message", TString); path])
       (TObject [(true, "received", TString); (true, "code", TLit "invalid_enum_value");
                 (true, "options", TArray TString); path; (true, "message", TString)]))).

Definition internal_shape : jtype :=
  TObject [(true, "error", TLit "Internal server error"); (true, "message", TString)].

Definition invalid_shape : jtype :=
  TObject [(true, "error", TLit "Invalid request"); (true, "details", TArray issue_shape)].

Definition success_shape : jtype :=
  TObject [(true, "success", TTrue); (true, "job", row_shape);
           (true, "booksCollected", TNat); (true, "message", TString)].

(** ** The contract of each endpoint: the statuses it may answer and the
    shape of the body of each. *)

Definition get_contract (r : response) : bool :=
  let b := res_body r in
  if bool_decide (res_status r = 200%Z) then has_type (TObject [(true, "job", view_shape)]) b
  else if bool_decide (res_status r = 400%Z \/ res_status r = 401%Z \/ res_status r = 404%Z) then
    has_type error_type b
  else if bool_decide (res_status r = 500%Z) then has_type internal_shape b
  else false.

Definition post_contract (r : response) : bool :=
  let b := res_body r in
  if bool_decide (res_status r = 200%Z) then has_type success_shape b
  else if bool_decide (res_status r = 400%Z) then has_type invalid_shape b
  else if bool_decide (res_status r = 401%Z) then has_type error_type b
  else if bool_decide (res_status r = 500%Z) then
    has_type error_type b || has_type internal_shape b
  else false.

(** ** Lemmas *)

Lemma job_type_typed t : has_type job_type_shape (JString (job_type_name t)) = true.
Proof. by destruct t. Qed.

Lemma status_typed s : has_type status_shape (JString (status_name s)) = true.
Proof. by destruct s. Qed.

Lemma params_typed p : has_type params_shape (params_json p) = true.
Proof. destruct p as [kw [c|]]; done. Qed.

#[local] Hint Resolve job_type_typed status_typed params_typed has_type_jstr_opt
  has_type_jnat_opt has_type_nat : kdp.

(** An object whose members all are required and present, in order. *)
Lemma has_type_req_cons k a w fs ms :
  has_type (TObject ((true, k, a) :: fs)) (JObject ((k, w) :: ms)) =
  has_type a w && has_type (TObject fs) (JObject ms).
Proof. cbn. by rewrite bool_decide_true. Qed.

Ltac typed_object :=
  rewrite ?has_type_req_cons;
  repeat match goal with |- _ && _ = true => apply andb_true_intro; split end;
  solve [done | eauto with kdp].

Lemma view_typed r : has_type view_shape (job_view r) = true.
Proof. unfold view_shape, job_view. typed_object. Qed.

Lemma row_typed r : has_type row_shape (row_json r) = true.
Proof. unfold row_shape, row_json. typed_object. Qed.

#[local] Hint Resolve view_typed row_typed : kdp.

Lemma strings_typed l : has_type (TArray TString) (JArray (JString <$> l)) = true.
Proof. induction l as [|x l IH]; [done|]. exact IH. Qed.

#[local] Hint Resolve strings_typed : kdp.

Lemma has_type_union a b v : has_type (TUnion a b) v = has_type a v || has_type b v.
Proof. done. Qed.

Lemma issue_typed i : has_type issue_shape (issue_json i) = true.
Proof.
  destruct i as [p [exp recv|exp recv|n|recv opts]]; cbn [issue_json code path]; unfold issue_shape;
    cbn zeta; rewrite !has_type_union; apply orb_true_intro;
    [left | right; apply orb_true_intro; left
    | right; apply orb_true_intro; right; apply orb_true_intro; left
    | right; apply orb_true_intro; right; apply orb_true_intro; right]; typed_object.
Qed.

Lemma internal_error_answer e d :
  exists r, internal_error e d = (inr r, d) /\ res_status r = 500%Z /\
    has_type internal_shape (res_body r) = true.
Proof. by eexists. Qed.

(** A handler wrapped in [try { ... } catch { return internal error }]
    answers on every path: with what its body answers, or with 500. *)
Lemma catch_internal_answers (P : response -> bool) (m : est db js_error response) d :
  (forall r, res_status r = 500%Z -> has_type internal_shape (res_body r) = true -> P r = true) ->
  (forall r d', m d = (inr r, d') -> P r = true) ->
  exists r d', est_catch m internal_error d = (inr r, d') /\ P r = true.
Proof.
  intros Hint Hbody. unfold est_catch. destruct (m d) as [[e|r] d'] eqn:Hm.
  - destruct (internal_error_answer e d') as (r & Hr & Hst & Hty). rewrite Hr. eauto.
  - eauto.
Qed.

Lemma issues_typed l : has_type (TArray issue_shape) (JArray (issue_json <$> l)) = true.
Proof.
  change (forallb (has_type issue_shape) (issue_json <$> l) = true).
  apply forallb_forall. intros x Hx%list_elem_of_In. apply list_elem_of_fmap in Hx as (i & -> & _).
  apply issue_typed.
Qed.

Lemma get_contract_internal r :
  res_status r = 500%Z -> has_type internal_shape (res_body r) = true -> get_contract r = true.
Proof. intros Hs Hty. unfold get_contract. rewrite Hs. done. Qed.

Lemma post_contract_internal r :
  res_status r = 500%Z -> has_type internal_shape (res_body r) = true -> post_contract r = true.
Proof. intros Hs Hty. unfold post_contract. rewrite Hs, Hty. by rewrite orb_true_r. Qed.

Lemma success_typed j books : post_contract (next_json (success_body j books)) = true.
Proof. unfold post_contract, success_body, success_shape. cbn [res_status res_body next_json].
  rewrite bool_decide_true by done. typed_object. Qed.

(** The failures spec section 4.1 lists for the strategy [method] selects. *)
Definition method_kinds (m : collect_method) : list error_kind :=
  match m with Api => api_kinds | Scraping => scrape_kinds end.

(** The collectors of an environment that uses [c] for the selected
    strategy. *)
Definition env_with_api (c : ApiCollector) : env := mk_env None c (scraper_seeing NetworkFailure).
Definition env_with_scraper (c : ScrapeCollector) : env :=
  mk_env None (api_answering 200) c.

(** ** The contract theorems *)

(** C13: every answer of [GET], on every path, has a status of the status
    endpoint's contract -- 200, 400, 401, 404 or 500 -- with a body of the
    shape the contract gives that status: the job's public view under
    [job] (every field present, typed, null where empty) for 200,
    [{error}] for 400/401/404, the internal-error body for 500.  No error
    escapes the handler. *)
Theorem GET_contract e req d :
  exists r d', GET e req d = (inr r, d') /\ get_contract r = true.
Proof.
  apply catch_internal_answers; [apply get_contract_internal|].
  intros r d' Hm. destruct (auth_user e); [|by run_inv Hm].
  destruct (search_get _ _) as [jid|]; [|by run_inv Hm].
  case_bool_decide; [by run_inv Hm|]. unfold est_bind, est_get in Hm.
  destruct (select_single d jid) as [err|data]; run_inv Hm; [done|].
  unfold get_contract; cbn [res_status res_body next_json]. rewrite bool_decide_true by done.
  rewrite has_type_req_cons, view_typed. done.
Qed.

(** C12: every answer of [POST], on every path, has a status of the
    trigger endpoint's contract -- 200, 400, 401 or 500 -- with a body of
    its shape: [{success: true, job, booksCollected, message}] with the
    stored row as [job] for 200, [{error: "Invalid request", details}]
    with zod's issues for 400, [{error}] for 401, and [{error}] or the
    internal-error body for 500.  No error escapes the handler. *)
Theorem POST_contract e req d :
  exists r d', POST e req d = (inr r, d') /\ post_contract r = true.
Proof.
  apply catch_internal_answers; [apply post_contract_internal|].
  intros r d' Hm. destruct (auth_user e); [|by run_inv Hm].
  unfold est_bind, req_json in Hm. destruct (req_body req) as [b|]; [|done].
  cbn [est_ret] in Hm.
  destruct (safeParse b) as [issues|v].
  - run_inv Hm. unfold post_contract, invalid_shape.
    cbn [res_status res_body next_json_status invalid_request].
    rewrite !has_type_req_cons, issues_typed. done.
  - unfold est_map_err in Hm.
    destruct (match method v with
              | Api => collectBooksViaApi (api e) (keywords v) (category v)
              | Scraping => collectBooksViaScraping (scraper e) (keywords v) (category v)
              end d) as [[err|res] d1]; [done|].
    cbn beta iota in Hm. destruct (result_job res); run_inv Hm; [apply success_typed | done].
Qed.

(** C14: the error taxonomy of the trigger endpoint (spec sections 4.1
    and 7): a request with [method] "api" can fail at the strategy level
    exactly with [UpstreamError], [RateLimitError] or [InvalidQueryError]
    -- never [ParseError] -- and one with "scraping" exactly with
    [UpstreamError], [RateLimitError] or [ParseError] -- never
    [InvalidQueryError]; each listed kind is one some marketplace answer
    produces. *)
Theorem method_error_kinds m k :
  (exists e v err, method v = m /\ strategy_outcome e v = inl err /\ kind_of err = k) <->
  k ∈ method_kinds m.
Proof.
  split.
  - intros (e & v & err & <- & Hout & <-). unfold strategy_outcome in Hout.
    destruct (method v); cbn; by eapply collect_error_listed.
  - destruct m; intros Hk.
    + destruct (api_raisable k Hk) as (c & kw & cat & err & Hc & Hkind).
      by exists (env_with_api c), (mk_request kw cat Api), err.
    + destruct (scrape_raisable k Hk) as (c & kw & cat & err & Hc & Hkind).
      by exists (env_with_scraper c), (mk_request kw cat Scraping), err.
Qed.

End Contract.
