(* ===== verification/Concurrency.v ===== *)
(** * Concurrent collection runs (spec, section 5)

    A collection run is three atomic store transactions: create the job;
    stamp it running; run the strategy and record the outcome.  Between two
    of them, other requests may touch the store.  [worker_step] is one
    transaction of one run; [run_sched] interleaves two runs by a schedule
    (which run takes the next step).  The spec asks that concurrent jobs be
    independent: whatever the interleaving, each run leaves its own job
    with the outcome of its own strategy. *)
From S2P Require Import Prelude JobStore Collector Orchestrator.
#[local] Set Warnings "-clear-no-such-hyp".

Module Concurrency.
Import JobStore Collector Orchestrator.

(** Where a run is: before its first step, its job created, its job
    started, finished with its answer, or stopped by a store error. *)
Inductive phase :=
  | PInit
  | PCreated (j : job_row)
  | PStarted (j : job_row)
  | PDone (res : collection_result)
  | PErr (e : store_error).

Section Worker.
Context `{Collector C} (c : C) (jt : job_kind) (kw : string) (cat : option string).

(** One transaction of the run. *)
Definition worker_step (ph : phase) : est db store_error phase :=
  match ph with
  | PInit =>
      created <- est_catch (j <- create jt (mk_params kw cat) None ;; est_ret (Some j))
                           (fun _ => est_ret None) ;;
      match created with
      | None => est_ret (PDone (mk_result None []))
      | Some j => est_ret (PCreated j)
      end
  | PCreated j =>
      t1 <- now ;;
      j1 <- update (id j) (running_patch t1) ;;
      est_ret (PStarted j1)
  | PStarted j =>
      let o := collect c kw cat in
      t2 <- now ;;
      j' <- update (id j) (outcome_patch t2 o) ;;
      est_ret (PDone (mk_result (Some j') (outcome_books o)))
  | PDone r => est_ret (PDone r)
  | PErr e => est_ret (PErr e)
  end.

Definition phase_result (ph : phase) : collection_result :=
  match ph with PDone r => r | _ => mk_result None [] end.

(** The three transactions in a row. *)
Definition run_alone : est db store_error collection_result :=
  ph1 <- worker_step PInit ;;
  ph2 <- worker_step ph1 ;;
  ph3 <- worker_step ph2 ;;
  est_ret (phase_result ph3).

(** The id of the run's job, once it has one. *)
Definition worker_id (ph : phase) : option string :=
  match ph with
  | PCreated j | PStarted j | PDone (mk_result (Some j) _) => Some (id j)
  | _ => None
  end.

Definition phase_rank (ph : phase) : nat :=
  match ph with PInit => 0 | PCreated _ => 1 | PStarted _ => 2 | _ => 3 end.

(** The fields the strategy's outcome fixes in the finished row. *)
Definition finished_as (o : collect_error + list book) (j : job_row) : Prop :=
  match o with
  | inr bs => status j = Completed /\ books_collected j = length bs /\ error_message j = None
  | inl e => status j = Failed /\ books_collected j = 0 /\ error_message j = Some (error_text e)
  end.

Definition of_query (j : job_row) : Prop := job_type j = jt /\ parameters j = mk_params kw cat.

(** What the store holds for a run in each phase: its job's row as the run
    last saw it; a finished run has its outcome recorded. *)
Definition phase_ok (d : db) (ph : phase) : Prop :=
  match ph with
  | PInit => True
  | PCreated j =>
      select_single d (id j) = inr j /\ status j = Pending /\ of_query j /\
      books_collected j = 0 /\ error_message j = None
  | PStarted j =>
      select_single d (id j) = inr j /\ status j = Running /\ of_query j /\
      books_collected j = 0 /\ error_message j = None
  | PDone (mk_result (Some j) bs) =>
      select_single d (id j) = inr j /\ bs = outcome_books (collect c kw cat) /\
      of_query j /\ finished_as (collect c kw cat) j
  | PDone (mk_result None _) | PErr _ => False
  end.

(** The three store transactions of a run, executed in a row with nothing
    in between, are exactly the service's [collect_books]. *)
Lemma run_alone_collect_books d : run_alone d = collect_books c jt kw cat d.
Proof.
  unfold run_alone, collect_books, worker_step, est_bind, est_catch, est_ret.
  destruct (create _ _ _ d) as [[e|j] d1]; [reflexivity|]. unfold now. cbn.
  destruct (update _ _ _) as [[e|j1] d2] eqn:Hu; [reflexivity|].
  apply update_id in Hu. rewrite Hu.
  by destruct (update _ _ _) as [[e|j2] d3].
Qed.

(** The store a run's transaction leaves: rows other than its job's are
    untouched. *)
Definition others_kept (ph : phase) (d d' : db) : Prop :=
  forall jid r, select_single d jid = inr r -> worker_id ph <> Some jid ->
    select_single d' jid = inr r.

Lemma phase_ok_frame ph d d' :
  phase_ok d ph -> (forall r, worker_id ph = Some (id r) -> select_single d (id r) = inr r ->
                             select_single d' (id r) = inr r) ->
  phase_ok d' ph.
Proof.
  intros Hok Hkeep. destruct ph as [|j|j|[[j|] bs]|e]; simpl in *; try done;
    (destruct Hok as [Hs Hrest]; split; [by apply Hkeep|done]).
Qed.

(** An accepted [update] of the run's own job: the store stays well-formed
    and available, the job's row becomes the patched row, other rows are
    kept. *)
Lemma update_own d j p :
  ids_wf d -> select_single d (id j) = inr j ->
  status j <> set_status p -> patch_ok (status j) p = true ->
  exists d', update (id j) p d = (inr (apply_patch j p), d') /\ ids_wf d' /\
    online d' = online d /\ select_single d' (id j) = inr (apply_patch j p) /\
    forall jid r, select_single d jid = inr r -> jid <> id j -> select_single d' jid = inr r.
Proof.
  intros Hwf Hs Hne Hok. eexists. split; [by apply update_step|].
  split; [by eapply ids_wf_replace|]. split; [done|].
  split; [exact (select_single_replace_self d (id j) j p Hwf Hs)|].
  intros jid r Hr Hjid. by rewrite select_single_replace_other.
Qed.

(** One transaction on a well-formed available store: the run moves to its
    next phase without error, the store stays well-formed, the run's job is
    as [phase_ok] says, rows of other jobs are kept, and a fresh job takes
    an id no existing row has. *)
Lemma worker_step_spec ph d :
  ids_wf d -> online d = true -> phase_ok d ph ->
  exists ph' d', worker_step ph d = (inr ph', d') /\ ids_wf d' /\ online d' = true /\
    phase_ok d' ph' /\ phase_rank ph' = Nat.min 3 (S (phase_rank ph)) /\
    others_kept ph d d' /\
    (forall jid r, select_single d jid = inr r -> worker_id ph <> Some jid ->
                   worker_id ph' <> Some jid).
Proof.
  intros Hwf Hon Hok. destruct ph as [|j|j|[[j|] bs]|e]; simpl in Hok; try done.
  - (* create *)
    pose proof (fresh_not_issued d Hwf) as Hf.
    unfold worker_step, est_bind, est_catch, est_ret, create. rewrite Hon. cbn.
    eexists _, _. split; [reflexivity|].
    split; [by apply ids_wf_append_fresh|]. split; [done|].
    assert (Hold : forall jid r, select_single d jid = inr r -> jid <> fresh_id (next_seq d)).
    { intros jid r (_ & Hr & <- & _)%select_single_inv Heq. apply Hf. rewrite <-Heq.
      by apply elem_of_fmap_key. }
    split; [repeat split; by apply select_single_last|]. split; [done|]. split.
    + intros jid r Hs _. rewrite select_single_append_other; eauto.
    + intros jid r Hs _ [= Heq]. by apply (Hold jid r Hs).
  - (* start *)
    destruct Hok as (Hs & Hst & Hq & Hb & He).
    destruct (update_own (mk_db (rows d) (next_seq d) (S (clock d)) (online d)) j
                (running_patch (clock d)) Hwf Hs) as (d' & Hu & Hwf' & Hon' & Hs' & Hkeep);
      [by rewrite Hst | by rewrite Hst|].
    unfold worker_step, est_bind, est_ret, now. cbn -[update]. rewrite Hu.
    eexists _, _. split; [reflexivity|]. split; [done|]. split; [by rewrite Hon'|].
    split; [split; [done|]; unfold of_query in *; destruct Hq; cbn; repeat split; congruence|].
    split; [done|]. split; [|done].
    intros jid r Hr Hne. apply Hkeep; [done|]. cbn in Hne. congruence.
  - (* finish *)
    destruct Hok as (Hs & Hst & Hq & Hb & He).
    destruct (update_own (mk_db (rows d) (next_seq d) (S (clock d)) (online d)) j
                (outcome_patch (clock d) (collect c kw cat)) Hwf Hs)
      as (d' & Hu & Hwf' & Hon' & Hs' & Hkeep);
      [rewrite Hst; apply outcome_patch_status | rewrite Hst; apply outcome_patch_ok|].
    unfold worker_step, est_bind, est_ret, now. cbn -[update]. rewrite Hu.
    eexists _, _. split; [reflexivity|]. split; [done|]. split; [by rewrite Hon'|].
    split; [split; [done|]; split; [done|]; unfold of_query in *; destruct Hq;
            split; [cbn; split; congruence|];
            destruct (collect c kw cat); cbn; repeat split; congruence|].
    split; [done|]. split; [|done].
    intros jid r Hr Hne. apply Hkeep; [done|]. cbn in Hne. congruence.
  - (* finished: nothing happens *)
    eexists _, _. split; [reflexivity|]. do 4 (split; [done|]).
    split; [intros jid r Hr _; done|]. intros jid r _ Hne. done.
Qed.

End Worker.

(** C15: the stages of a run, as the store sees them.  On a well-formed
    available store the run's three transactions take its job through
    [pending], then [running], then a terminal status, each stage a store
    the next transaction starts from: the first creates the job under an
    id no row had, the second moves that same row to [running], the third
    to [completed] or [failed].  Run back to back they are the service's
    [collect_books], whose answer and final store are those of the third
    stage. *)
Theorem run_stages `{Collector C} (c : C) jt kw cat d :
  ids_wf d -> online d = true ->
  exists j0 j1 j2 d1 d2 d3,
    worker_step c jt kw cat PInit d = (inr (PCreated j0), d1) /\
    worker_step c jt kw cat (PCreated j0) d1 = (inr (PStarted j1), d2) /\
    worker_step c jt kw cat (PStarted j1) d2 =
      (inr (PDone (mk_result (Some j2) (outcome_books (collect c kw cat)))), d3) /\
    collect_books c jt kw cat d = (inr (mk_result (Some j2) (outcome_books (collect c kw cat))), d3) /\
    select_single d (id j0) = inl NotFound /\
    select_single d1 (id j0) = inr j0 /\ status j0 = Pending /\
    id j1 = id j0 /\ select_single d2 (id j0) = inr j1 /\ status j1 = Running /\
    id j2 = id j0 /\ select_single d3 (id j0) = inr j2 /\ terminal (status j2) = true.
Proof.
  intros Hwf Hon. pose proof (fresh_not_issued d Hwf) as Hf.
  set (r1 := new_row d jt kw cat). set (r2 := apply_patch r1 (running_patch (S (clock d)))).
  set (r3 := final_row d jt kw cat (collect c kw cat)).
  exists r1, r2, r3, (mk_db (rows d ++ [r1]) (S (next_seq d)) (S (clock d)) true),
    (mk_db (rows d ++ [r2]) (S (next_seq d)) (S (S (clock d))) true),
    (mk_db (rows d ++ [r3]) (S (next_seq d)) (S (S (S (clock d)))) true).
  split; [unfold worker_step, est_bind, est_catch, est_ret, create; by rewrite Hon|].
  split; [unfold worker_step, est_bind, est_ret, now; cbn -[update];
          change (fresh_id (next_seq d)) with (id r1); by rewrite update_last|].
  split; [unfold worker_step, est_bind, est_ret, now; cbn -[update];
          change (fresh_id (next_seq d)) with (id r2);
          rewrite update_last; [done..| apply outcome_patch_status | apply outcome_patch_ok]|].
  split; [by apply collect_books_run|].
  split; [unfold select_single; by rewrite Hon, filter_key_absent|].
  split; [by apply select_single_last|]. split; [done|].
  split; [done|]. split; [exact (select_single_last (rows d) _ _ r2 Hf)|]. split; [done|].
  split; [done|]. split; [exact (select_single_last (rows d) _ _ r3 Hf)|].
  unfold r3, final_row. by destruct (collect c kw cat).
Qed.

(** A transaction that throws stops its run. *)
Definition settle (r : (store_error + phase) * db) : phase * db :=
  match r with (inl e, d) => (PErr e, d) | (inr ph, d) => (ph, d) end.

(** ** Lemmas shared by both runs *)

Lemma phase_ok_id `{Collector C} (c : C) jt kw cat d ph x :
  phase_ok c jt kw cat d ph -> worker_id ph = Some x -> exists r, select_single d x = inr r.
Proof.
  destruct ph as [|j|j|[[j|] bs]|e]; simpl; try done;
    (intros [Hs _] [= <-]; by eexists).
Qed.

Lemma phase_rank_le ph : phase_rank ph <= 3.
Proof. destruct ph; simpl; lia. Qed.

Lemma distinct_sym (a b : option string) :
  (forall x, a = Some x -> b <> Some x) -> (forall x, b = Some x -> a <> Some x).
Proof. intros H x Hb Ha. exact (H x Ha Hb). Qed.

(** A finished run whose phase is well-formed answered with its job, and the
    store holds that job with the outcome of the run's strategy. *)
Lemma phase_done `{Collector C} (c : C) jt kw cat d ph :
  phase_ok c jt kw cat d ph -> phase_rank ph = 3 ->
  exists j, ph = PDone (mk_result (Some j) (outcome_books (collect c kw cat))) /\
    select_single d (id j) = inr j /\ of_query jt kw cat j /\ finished_as (collect c kw cat) j.
Proof.
  destruct ph as [|j|j|[[j|] bs]|e]; simpl; try done; try lia.
  intros (Hs & -> & Hq & Hf) _. by exists j.
Qed.

(** One transaction of one run, the other run's job framed: its phase stays
    well-formed and the two jobs stay distinct. *)
Lemma move_one `{Collector C1} `{Collector C2} (c1 : C1) (c2 : C2)
    jt1 kw1 cat1 jt2 kw2 cat2 ph1 ph2 d :
  ids_wf d -> online d = true ->
  phase_ok c1 jt1 kw1 cat1 d ph1 -> phase_ok c2 jt2 kw2 cat2 d ph2 ->
  (forall x, worker_id ph1 = Some x -> worker_id ph2 <> Some x) ->
  exists ph1' d', settle (worker_step c1 jt1 kw1 cat1 ph1 d) = (ph1', d') /\
    ids_wf d' /\ online d' = true /\
    phase_ok c1 jt1 kw1 cat1 d' ph1' /\ phase_ok c2 jt2 kw2 cat2 d' ph2 /\
    (forall x, worker_id ph1' = Some x -> worker_id ph2 <> Some x) /\
    phase_rank ph1' = Nat.min 3 (S (phase_rank ph1)).
Proof.
  intros Hwf Hon Hok1 Hok2 Hdis.
  destruct (worker_step_spec c1 jt1 kw1 cat1 ph1 d Hwf Hon Hok1)
    as (ph1' & d' & Hstep & Hwf' & Hon' & Hok1' & Hrank & Hkeep & Hfresh).
  exists ph1', d'. rewrite Hstep. do 4 (split; [done|]). split.
  - apply (phase_ok_frame c2 jt2 kw2 cat2 ph2 d d' Hok2).
    intros r Hid Hs. apply (Hkeep (id r) r Hs). intros Heq. exact (Hdis (id r) Heq Hid).
  - split; [|done]. intros x Hx Hx2.
    destruct (phase_ok_id c2 jt2 kw2 cat2 d ph2 x Hok2 Hx2) as [r Hs].
    apply (Hfresh x r Hs); [|done]. intros Hx1. exact (Hdis x Hx1 Hx2).
Qed.

(** ** Two runs, interleaved *)
Section Interleaving.
Context `{Collector CA} `{Collector CB} (ca : CA) (cb : CB)
        (jta jtb : job_kind) (kwa kwb : string) (cata catb : option string).

(** The store and where each run is. *)
Record sys := mk_sys { sys_db : db; phase_a : phase; phase_b : phase }.

(** The next transaction, of run A ([true]) or of run B ([false]). *)
Definition sched_step (s : sys) (a_moves : bool) : sys :=
  if a_moves then
    let '(ph, d) := settle (worker_step ca jta kwa cata (phase_a s) (sys_db s)) in
    mk_sys d ph (phase_b s)
  else
    let '(ph, d) := settle (worker_step cb jtb kwb catb (phase_b s) (sys_db s)) in
    mk_sys d (phase_a s) ph.

Definition run_sched (sched : list bool) (s : sys) : sys := foldl sched_step s sched.

Definition steps_of (b : bool) (sched : list bool) : nat := length (filter (fun x => x = b) sched).

(** Both runs' jobs as their phases say, and never the same job. *)
Definition sys_inv (s : sys) : Prop :=
  ids_wf (sys_db s) /\ online (sys_db s) = true /\
  phase_ok ca jta kwa cata (sys_db s) (phase_a s) /\
  phase_ok cb jtb kwb catb (sys_db s) (phase_b s) /\
  (forall x, worker_id (phase_a s) = Some x -> worker_id (phase_b s) <> Some x).

Lemma sys_inv_init d : ids_wf d -> online d = true -> sys_inv (mk_sys d PInit PInit).
Proof. intros Hwf Hon. by split; [|split]. Qed.

Lemma sched_step_inv s b :
  sys_inv s ->
  sys_inv (sched_step s b) /\
  phase_rank (phase_a (sched_step s b)) =
    (if b then Nat.min 3 (S (phase_rank (phase_a s))) else phase_rank (phase_a s)) /\
  phase_rank (phase_b (sched_step s b)) =
    (if b then phase_rank (phase_b s) else Nat.min 3 (S (phase_rank (phase_b s)))).
Proof.
  destruct s as [d pa pb]. intros (Hwf & Hon & Ha & Hb & Hdis). cbn [sys_db phase_a phase_b] in *.
  destruct b; unfold sched_step; cbn [sys_db phase_a phase_b].
  - destruct (move_one ca cb jta kwa cata jtb kwb catb pa pb d Hwf Hon Ha Hb Hdis)
      as (pa' & d' & -> & Hwf' & Hon' & Ha' & Hb' & Hdis' & Hr).
    unfold sys_inv; cbn -[Nat.min].
    exact (conj (conj Hwf' (conj Hon' (conj Ha' (conj Hb' Hdis')))) (conj Hr eq_refl)).
  - destruct (move_one cb ca jtb kwb catb jta kwa cata pb pa d Hwf Hon Hb Ha (distinct_sym _ _ Hdis))
      as (pb' & d' & -> & Hwf' & Hon' & Hb' & Ha' & Hdis' & Hr).
    unfold sys_inv; cbn -[Nat.min].
    exact (conj (conj Hwf' (conj Hon' (conj Ha' (conj Hb' (distinct_sym _ _ Hdis'))))) (conj eq_refl Hr)).
Qed.

Lemma run_sched_inv sched s :
  sys_inv s ->
  sys_inv (run_sched sched s) /\
  phase_rank (phase_a (run_sched sched s)) = Nat.min 3 (phase_rank (phase_a s) + steps_of true sched) /\
  phase_rank (phase_b (run_sched sched s)) = Nat.min 3 (phase_rank (phase_b s) + steps_of false sched).
Proof.
  revert s. induction sched as [|b sched IH]; intros s Hinv.
  - unfold run_sched, steps_of. cbn -[Nat.min].
    pose proof (phase_rank_le (phase_a s)). pose proof (phase_rank_le (phase_b s)).
    split; [done|]. split; lia.
  - destruct (sched_step_inv s b Hinv) as (Hinv1 & Hra & Hrb).
    destruct (IH _ Hinv1) as (Hinv2 & Hra2 & Hrb2).
    split; [done|]. unfold run_sched, steps_of in *. cbn [foldl].
    rewrite Hra2, Hrb2, Hra, Hrb, !filter_cons.
    pose proof (phase_rank_le (phase_a s)). pose proof (phase_rank_le (phase_b s)).
    destruct b; cbn -[Nat.min filter]; repeat case_decide; try congruence;
      cbn [length]; split; lia.
Qed.

(** C19: two collection runs interleaved in any order -- each getting its
    three transactions, the other's in between at any point -- finish
    independently: each answers with its own job, the two jobs are distinct
    rows of the store, and each row holds its own query and the outcome of
    its own strategy (completed with its count, or failed with its error
    text), exactly as when it runs alone. *)
Theorem interleaved_runs_independent sched d :
  ids_wf d -> online d = true -> 3 <= steps_of true sched -> 3 <= steps_of false sched ->
  exists ja jb,
    phase_a (run_sched sched (mk_sys d PInit PInit)) =
      PDone (mk_result (Some ja) (outcome_books (collect ca kwa cata))) /\
    phase_b (run_sched sched (mk_sys d PInit PInit)) =
      PDone (mk_result (Some jb) (outcome_books (collect cb kwb catb))) /\
    id ja <> id jb /\
    select_single (sys_db (run_sched sched (mk_sys d PInit PInit))) (id ja) = inr ja /\
    select_single (sys_db (run_sched sched (mk_sys d PInit PInit))) (id jb) = inr jb /\
    of_query jta kwa cata ja /\ finished_as (collect ca kwa cata) ja /\
    of_query jtb kwb catb jb /\ finished_as (collect cb kwb catb) jb.
Proof.
  intros Hwf Hon Ha Hb.
  pose proof (sys_inv_init d Hwf Hon) as Hinv.
  destruct (run_sched_inv sched _ Hinv) as ((Hwf' & Hon' & Hoka & Hokb & Hdis) & Hra & Hrb).
  cbn [phase_a phase_b phase_rank] in Hra, Hrb.
  destruct (phase_done ca jta kwa cata _ _ Hoka) as (ja & Hpa & Hsa & Hqa & Hfa); [lia|].
  destruct (phase_done cb jtb kwb catb _ _ Hokb) as (jb & Hpb & Hsb & Hqb & Hfb); [lia|].
  exists ja, jb. split; [done|]. split; [done|]. split.
  - intros Heq. apply (Hdis (id ja)); rewrite ?Hpa, ?Hpb; cbn; congruence.
  - exact (conj Hsa (conj Hsb (conj Hqa (conj Hfa (conj Hqb Hfb))))).
Qed.

End Interleaving.

(** A scraper that meets the anti-automation page. *)
Definition scraper_blocked : ScrapeCollector := mk_scraper (fun _ _ => Page 503 None).

Lemma interleaved_runs_independent_witness :
  ids_wf empty_db /\ online empty_db = true /\
  3 <= steps_of true [true; false; false; true; false; true] /\
  3 <= steps_of false [true; false; false; true; false; true] /\
  exists ja jb,
    phase_a (run_sched api_empty scraper_blocked JobApi JobScraping "gardening" "knitting" None None
               [true; false; false; true; false; true] (mk_sys empty_db PInit PInit)) =
      PDone (mk_result (Some ja) (outcome_books (collect api_empty "gardening" None))) /\
    phase_b (run_sched api_empty scraper_blocked JobApi JobScraping "gardening" "knitting" None None
               [true; false; false; true; false; true] (mk_sys empty_db PInit PInit)) =
      PDone (mk_result (Some jb) (outcome_books (collect scraper_blocked "knitting" None))) /\
    id ja <> id jb /\
    select_single (sys_db (run_sched api_empty scraper_blocked JobApi JobScraping "gardening" "knitting"
                     None None [true; false; false; true; false; true] (mk_sys empty_db PInit PInit)))
                  (id ja) = inr ja /\
    select_single (sys_db (run_sched api_empty scraper_blocked JobApi JobScraping "gardening" "knitting"
                     None None [true; false; false; true; false; true] (mk_sys empty_db PInit PInit)))
                  (id jb) = inr jb /\
    of_query JobApi "gardening" None ja /\ finished_as (collect api_empty "gardening" None) ja /\
    of_query JobScraping "knitting" None jb /\ finished_as (collect scraper_blocked "knitting" None) jb.
Proof.
  split; [decide_eval|]. split; [reflexivity|]. split; [vm_compute; lia|]. split; [vm_compute; lia|].
  apply interleaved_runs_independent; [decide_eval | reflexivity | vm_compute; lia | vm_compute; lia].
Defined.

Lemma run_stages_witness :
  ids_wf empty_db /\ online empty_db = true /\
  exists j0 j1 j2 d1 d2 d3,
    worker_step api_empty JobApi "gardening" None PInit empty_db = (inr (PCreated j0), d1) /\
    worker_step api_empty JobApi "gardening" None (PCreated j0) d1 = (inr (PStarted j1), d2) /\
    worker_step api_empty JobApi "gardening" None (PStarted j1) d2 =
      (inr (PDone (mk_result (Some j2) (outcome_books (collect api_empty "gardening" None)))), d3) /\
    collect_books api_empty JobApi "gardening" None empty_db =
      (inr (mk_result (Some j2) (outcome_books (collect api_empty "gardening" None))), d3) /\
    select_single empty_db (id j0) = inl NotFound /\
    select_single d1 (id j0) = inr j0 /\ status j0 = Pending /\
    id j1 = id j0 /\ select_single d2 (id j0) = inr j1 /\ status j1 = Running /\
    id j2 = id j0 /\ select_single d3 (id j0) = inr j2 /\ terminal (status j2) = true.
Proof.
  split; [decide_eval|]. split; [reflexivity|].
  apply run_stages; [decide_eval | reflexivity].
Defined.

End Concurrency.
