(* ===== verification/Jsx.v ===== *)
(** * Rendered JSX

    The tree a React component returns: elements with their props and
    children, text, and elements of other components ([ButtonLead],
    [Image]) kept by name.  Template literals and [&&] are written out with
    JavaScript's conversions: [`${b && "x"}`] prints ["false"] when [b] is
    false. *)
From S2P Require Import Prelude.

Module Jsx.

#[local] Set Warnings "-register-all".

(** A prop value. *)
Inductive prop :=
  | PStr (s : string)
  | PBool (b : bool)
  | PNum (n : Z)
  | PStyle (fields : list (string * prop))
  | PUndefined
  | PHandler (name : string).

Inductive vnode :=
  | Elem (tag : string) (props : list (string * prop)) (children : list vnode)
  | Text (s : string)
  | Component (name : string) (props : list (string * prop)).

(** The value of [b && s] for a boolean [b] and a string [s]. *)
Inductive js_val := JSBool (b : bool) | JSStr (s : string).

Definition js_and (b : bool) (s : string) : js_val := if b then JSStr s else JSBool false.

(** [`${v}`] *)
Definition template (v : js_val) : string :=
  match v with
  | JSStr s => s
  | JSBool b => if b then "true" else "false"
  end.

(** The double quote character, for text that contains one. *)
Definition dquote : string := String (Ascii.ascii_of_nat 34) EmptyString.

(** The [className] of an element, when it has one. *)
Definition class_name (v : vnode) : option string :=
  match v with
  | Elem _ ps _ | Component _ ps =>
      match list_find (fun kv => kv.1 = "className") ps with
      | Some (_, (_, PStr s)) => Some s
      | _ => None
      end
  | Text _ => None
  end.

(** The value of prop [k], when the element sets it. *)
Definition prop_of (k : string) (v : vnode) : option prop :=
  match v with
  | Elem _ ps _ | Component _ ps => snd <$> (snd <$> list_find (fun kv => kv.1 = k) ps)
  | Text _ => None
  end.

Definition children_of (v : vnode) : list vnode :=
  match v with Elem _ _ cs => cs | _ => [] end.

End Jsx.
