(* ===== verification/Faq.v ===== *)
(** * The FAQ accordion: [src/components/FAQ.tsx]

    [faqList] holds four question/answer pairs.  [FaqItem] keeps one piece
    of state, [isOpen] ([useState(false)]); a click on its button calls
    [setIsOpen(!isOpen)], and the item renders its button, icon and answer
    panel from [isOpen] (the panel's open height is the measured
    [scrollHeight] of the panel, an input here).  [FAQ] renders one
    [FaqItem] per entry; the state of the whole accordion is the list of
    the items' [isOpen] flags. *)
From S2P Require Import Prelude Jsx.

Module Faq.
Import Jsx.

(** [FAQItemProps] *)
Record faq_item := mk_faq { question : string; answer : vnode }.

(** An answer: [<div className="space-y-2 leading-relaxed"><p>...</p></div>];
    JSX joins the lines of the paragraph with single spaces and decodes
    [&apos;] and [&quot;]. *)
Definition answer_div (text : string) : vnode :=
  Elem "div" [("className", PStr "space-y-2 leading-relaxed")] [Elem "p" [] [Text text]].

Definition faqList : list faq_item := [
  mk_faq "How does KDP Seek find profitable niches?"
    (answer_div ("KDP Seek automatically scans Amazon's data to analyze thousands of book categories. We track competition levels (book count, quality metrics), demand signals (search volume, sales rank trends), publishing velocity, price points, review patterns, and seasonal trends. Our algorithm scores and ranks niches based on profitability potential, giving you actionable intelligence like "
      +:+ dquote +:+ "pet training for senior dogs" +:+ dquote
      +:+ " has only 47 quality books but growing search volume."));
  mk_faq "What data do you analyze?"
    (answer_div "We analyze publishing velocity (how many books are published per category over time), price points, review patterns, seasonal trends, competition metrics (book count, average ratings, review counts), and revenue potential based on search volume and historical sales data patterns. This goes far beyond basic keyword research.");
  mk_faq "How much does it cost?"
    (answer_div "Pricing ranges from $29-99/month depending on features. Our plans are designed for the 2+ million active KDP publishers who treat this as a business, not a hobby. Each tier offers different levels of niche searches, detailed analytics, and export capabilities.");
  mk_faq "Can I see examples of successful niches?"
    (answer_div "Yes! Every successful book published using KDP Seek becomes a case study. We showcase these with before/after metrics and testimonials to show how automated niche discovery led to bestsellers. In a market projected to hit $12 billion by 2027, we help you find the niches that separate profitable publishers from the wannabes.")
].

(** [onClick]: [e.preventDefault(); setIsOpen(!isOpen)] *)
Definition toggle (isOpen : bool) : bool := negb isOpen.

Definition rect_props (cls : string) : list (string * prop) :=
  [("y", PStr "7"); ("width", PStr "16"); ("height", PStr "2"); ("rx", PStr "1");
   ("className", PStr cls)].

(** [<FaqItem item={item} />] rendered with its state [isOpen]. *)
Definition FaqItem (item : faq_item) (isOpen : bool) (scrollHeight : option Z) : vnode :=
  Elem "li" [] [
    Elem "button"
      [("className", PStr "relative flex gap-2 items-center w-full py-5 text-base font-semibold text-left border-t md:text-lg border-base-content/10");
       ("onClick", PHandler "toggle"); ("aria-expanded", PBool isOpen)] [
      Elem "span"
        [("className", PStr ("flex-1 text-base-content " +:+ (if isOpen then "text-primary" else "")))]
        [Text (question item)];
      Elem "svg"
        [("className", PStr "flex-shrink-0 w-4 h-4 ml-auto fill-current");
         ("viewBox", PStr "0 0 16 16"); ("xmlns", PStr "http://www.w3.org/2000/svg")] [
        Elem "rect" (rect_props ("transform origin-center transition duration-200 ease-out "
                                 +:+ template (js_and isOpen "rotate-180"))) [];
        Elem "rect" (rect_props ("transform origin-center rotate-90 transition duration-200 ease-out "
                                 +:+ template (js_and isOpen "rotate-180 hidden"))) []
      ]
    ];
    Elem "div"
      [("ref", PHandler "accordion");
       ("className", PStr "transition-all duration-300 ease-in-out opacity-80 overflow-hidden");
       ("style", if isOpen
                 then PStyle [("maxHeight", match scrollHeight with Some h => PNum h | None => PUndefined end);
                              ("opacity", PNum 1)]
                 else PStyle [("maxHeight", PNum 0); ("opacity", PNum 0)])]
      [Elem "div" [("className", PStr "pb-5 leading-relaxed")] [answer item]]
  ].

(** The accordion's state: the [isOpen] flag of each item, by index. *)
Definition faq_init : list bool := replicate (length faqList) false.

(** A click on the button of item [i]. *)
Definition faq_click (i : nat) (open : list bool) : list bool := alter toggle i open.

(** [faqList.map((item, i) => <FaqItem key={i} item={item} />)] *)
Definition faq_entries (open : list bool) (heights : list (option Z)) : list vnode :=
  imap (fun i item => FaqItem item (default false (open !! i)) (mjoin (heights !! i))) faqList.

(** [<FAQ />], given the items' states and measured panel heights. *)
Definition FAQ (open : list bool) (heights : list (option Z)) : vnode :=
  Elem "section" [("className", PStr "bg-base-200"); ("id", PStr "faq")] [
    Elem "div" [("className", PStr "py-24 px-8 max-w-7xl mx-auto flex flex-col md:flex-row gap-12")] [
      Elem "div" [("className", PStr "flex flex-col text-left basis-1/2")] [
        Elem "p" [("className", PStr "inline-block font-semibold text-primary mb-4")] [Text "FAQ"];
        Elem "p" [("className", PStr "sm:text-4xl text-3xl font-extrabold text-base-content")]
          [Text "Frequently Asked Questions"]
      ];
      Elem "ul" [("className", PStr "basis-1/2")] (faq_entries open heights)
    ]
  ].

(** The accordion after a sequence of clicks, from the first render. *)
Definition faq_run (clicks : list nat) : list bool :=
  foldl (fun s i => faq_click i s) faq_init clicks.

Definition clicks_on (j : nat) (clicks : list nat) : nat := length (filter (fun k => k = j) clicks).

(** The button and the answer panel of a rendered item. *)
Definition item_button (v : vnode) : vnode := default (Text "") (children_of v !! 0).
Definition item_panel (v : vnode) : vnode := default (Text "") (children_of v !! 1).

Definition open_style (h : option Z) : prop :=
  PStyle [("maxHeight", match h with Some h => PNum h | None => PUndefined end); ("opacity", PNum 1)].
Definition closed_style : prop := PStyle [("maxHeight", PNum 0); ("opacity", PNum 0)].

(** ** Lemmas *)

Lemma faq_click_lookup i j s :
  faq_click i s !! j = (if bool_decide (i = j) then negb else id) <$> s !! j.
Proof.
  unfold faq_click. destruct (decide (i = j)) as [<-|Hij].
  - rewrite bool_decide_true, list_lookup_alter, decide_True by done. reflexivity.
  - rewrite bool_decide_false, list_lookup_alter, decide_False by done.
    by destruct (s !! j).
Qed.

Lemma faq_clicks_lookup s clicks j :
  foldl (fun s i => faq_click i s) s clicks !! j =
  (fun b => xorb b (Nat.odd (clicks_on j clicks))) <$> s !! j.
Proof.
  revert s. induction clicks as [|i cs IH]; intros s.
  - simpl. by destruct (s !! j) as [[]|].
  - cbn [foldl]. rewrite IH, faq_click_lookup. unfold clicks_on. rewrite filter_cons.
    destruct (s !! j) as [b|]; [|done]. simpl.
    case_bool_decide; case_decide; subst; try done; simpl;
      rewrite ?Nat.odd_succ, <-?Nat.negb_odd; by destruct b, (Nat.odd _).
Qed.

Lemma faq_entry_lookup s heights j v :
  faq_entries s heights !! j = Some v ->
  exists item, faqList !! j = Some item /\
    v = FaqItem item (default false (s !! j)) (mjoin (heights !! j)).
Proof.
  unfold faq_entries. rewrite list_lookup_imap.
  destruct (faqList !! j) eqn:Hj; simpl; intros H; [|done]. injection H as <-. eauto.
Qed.

(** ** Properties *)

(** C33: after any sequence of clicks from the first render, item [j] of
    the list renders expanded -- its button's [aria-expanded] is true and its
    panel has the measured height and opacity 1 -- exactly when the clicks
    on [j] are odd in number; otherwise it renders collapsed, height 0 and
    opacity 0.  Its two icon bars carry the classes the template literals
    print: [rotate-180] (and [rotate-180 hidden]) when expanded, and the
    stray class ["false"] when collapsed, since [`${isOpen && "..."}`]
    prints the value [false]. *)
Theorem faq_render_parity clicks heights j v :
  faq_entries (faq_run clicks) heights !! j = Some v ->
  prop_of "aria-expanded" (item_button v) = Some (PBool (Nat.odd (clicks_on j clicks))) /\
  prop_of "style" (item_panel v) =
    Some (if Nat.odd (clicks_on j clicks) then open_style (mjoin (heights !! j)) else closed_style) /\
  map class_name (children_of (default (Text "") (children_of (item_button v) !! 1))) =
    [Some ("transform origin-center transition duration-200 ease-out " +:+
           if Nat.odd (clicks_on j clicks) then "rotate-180" else "false");
     Some ("transform origin-center rotate-90 transition duration-200 ease-out " +:+
           if Nat.odd (clicks_on j clicks) then "rotate-180 hidden" else "false")].
Proof.
  intros Hv. destruct (faq_entry_lookup _ _ _ _ Hv) as (item & Hj & ->).
  unfold faq_run. rewrite faq_clicks_lookup.
  assert (Hlt : j < length faqList) by (apply lookup_lt_is_Some; eauto).
  unfold faq_init. rewrite lookup_replicate_2 by done. simpl.
  by destruct (Nat.odd _).
Qed.

Lemma faq_render_parity_witness :
  exists v, faq_entries (faq_run [0; 2; 0]) [None; None; Some 120%Z; None] !! 2 = Some v /\
  prop_of "aria-expanded" (item_button v) = Some (PBool (Nat.odd (clicks_on 2 [0; 2; 0]))) /\
  prop_of "style" (item_panel v) =
    Some (if Nat.odd (clicks_on 2 [0; 2; 0])
          then open_style (mjoin ([None; None; Some 120%Z; None] !! 2)) else closed_style) /\
  map class_name (children_of (default (Text "") (children_of (item_button v) !! 1))) =
    [Some ("transform origin-center transition duration-200 ease-out " +:+
           if Nat.odd (clicks_on 2 [0; 2; 0]) then "rotate-180" else "false");
     Some ("transform origin-center rotate-90 transition duration-200 ease-out " +:+
           if Nat.odd (clicks_on 2 [0; 2; 0]) then "rotate-180 hidden" else "false")].
Proof.
  eexists. split; [reflexivity|]. apply faq_render_parity. reflexivity.
Defined.

End Faq.
