(* ===== verification/Hero.v ===== *)
(** * The hero banner: [src/components/Hero.tsx]

    A stateless component: a headline, a paragraph, the [ButtonLead]
    component and the product image ([next/image] with the imported
    [cheer-book-mac.png]).  Its rendered tree is a constant. *)
From S2P Require Import Prelude Jsx.

Module Hero.
Import Jsx.

Definition headline : string := "KDP Seek finds the most profitable book niches".

Definition pitch : string :=
  "Input your interests, get the best book niche for you with low competition and high demand. Get keyword suggestions, competition analysis, and revenue potential estimates.".

(** [<Hero />] *)
Definition Hero : vnode :=
  Elem "section"
    [("className", PStr "max-w-7xl mx-auto bg-base-100 flex flex-col lg:flex-row items-center justify-center gap-16 lg:gap-20 px-8 py-8 lg:py-20")] [
    Elem "div"
      [("className", PStr "flex flex-col gap-10 lg:gap-14 items-center justify-center text-center lg:text-left lg:items-start")] [
      Elem "h1" [("className", PStr "font-extrabold text-4xl lg:text-6xl tracking-tight md:-mb-4")] [Text headline];
      Elem "p" [("className", PStr "text-lg opacity-80 leading-relaxed")] [Text pitch];
      Component "ButtonLead" []
    ];
    Elem "div" [("className", PStr "lg:w-full")] [
      Component "Image"
        [("src", PStr "cheer-book-mac.png"); ("alt", PStr "Product Demo"); ("className", PStr "w-full");
         ("priority", PBool true); ("width", PNum 500); ("height", PNum 500)]
    ]
  ].

End Hero.
